(** * sc2profile-twitch-extension-api: the viewer plugin and the db plugin

    A shallow embedding of the viewer plugin (the aggregation and
    read-through cache pipeline) and of [src/plugins/db.ts] (the persistent
    channel-configuration store), with theorems about rank selection,
    season statistics, match-history normalisation, pacing, batch assembly
    and cache behaviour.

    Modelling conventions.
    - JavaScript numbers are [JsNum]: an exact rational, or one of NaN,
      +Infinity, -Infinity; zero is unsigned.  IEEE double arithmetic
      agrees with the exact one on integers while every operand and
      result stays within 2^53 in absolute value, and a quotient of two
      such integers followed by [Math.round] agrees with the exact one
      while the dividend stays below 2^52.  Theorems that range over
      counts state these bounds where their conclusion depends on them.
    - JavaScript strings are [string]; [toLowerCase] is modelled on the
      ASCII letters, which covers the league names and match decisions the
      upstream service sends.
    - A value that may be [undefined] is an [option]; a field is optional
      exactly where the source guards it ([?.], [||], a truthiness test).
    - A thrown exception or a rejected promise is [Throw]; [async]
      functions run in the monad [M], which threads a virtual clock in
      milliseconds and collects timestamped events.  Tasks handed to
      [Promise.all] start together and their events are merged by
      timestamp, events of one instant in the order of the tasks.
    - The upstream client answers a call by a function of the call
      ([None]: the promise is rejected) after a latency of its own.  A
      cache command is applied to the store when it is issued; a caller
      that awaits it resumes one cache round trip later. *)

From Stdlib Require Import ZArith QArith Qcanon Qround Lia Ascii String.
From stdpp Require Import base option list strings pretty gmap.

Local Open Scope string_scope.
Local Open Scope Z_scope.

(** ** JavaScript values *)

Module Js.

Inductive JsNum :=
| Num (q : Qc)
| NaN
| PosInf
| NegInf.

Definition of_Z (z : Z) : JsNum := Num (Q2Qc (inject_Z z)).

Definition is_zero (q : Qc) : bool := Qeq_bool (this q) 0.
Definition is_neg (q : Qc) : bool := negb (Qle_bool 0 (this q)).

(** [ToBoolean] on a number: [0] and [NaN] are falsy. *)
Definition truthy_num (n : JsNum) : bool :=
  match n with
  | Num q => negb (is_zero q)
  | NaN => false
  | PosInf | NegInf => true
  end.

(** [ToNumber(undefined)] is [NaN]. *)
Definition to_number (v : option JsNum) : JsNum := default NaN v.

(** [a + b], [a * b] and [a / b] on numbers, computed exactly.  The
    code computes them in doubles, which round: the two agree on
    integers as long as operands and result are within 2^53 in absolute
    value, and for a quotient handed to [Math.round] as long as the
    dividend is below 2^52.  Beyond that the addition of doubles is not
    associative and a quotient may round to the next half. *)
Definition add (a b : JsNum) : JsNum :=
  match a, b with
  | NaN, _ | _, NaN => NaN
  | Num x, Num y => Num (x + y)%Qc
  | PosInf, NegInf | NegInf, PosInf => NaN
  | PosInf, _ | _, PosInf => PosInf
  | NegInf, _ | _, NegInf => NegInf
  end.

Definition inf_of_sign (negative : bool) : JsNum :=
  if negative then NegInf else PosInf.

Definition mul (a b : JsNum) : JsNum :=
  match a, b with
  | NaN, _ | _, NaN => NaN
  | Num x, Num y => Num (x * y)%Qc
  | Num x, PosInf | PosInf, Num x =>
      if is_zero x then NaN else inf_of_sign (is_neg x)
  | Num x, NegInf | NegInf, Num x =>
      if is_zero x then NaN else inf_of_sign (negb (is_neg x))
  | PosInf, PosInf | NegInf, NegInf => PosInf
  | PosInf, NegInf | NegInf, PosInf => NegInf
  end.

Definition div (a b : JsNum) : JsNum :=
  match a, b with
  | NaN, _ | _, NaN => NaN
  | Num x, Num y =>
      if is_zero y
      then (if is_zero x then NaN else inf_of_sign (is_neg x))
      else Num (x / y)%Qc
  | Num _, (PosInf | NegInf) => Num 0%Qc
  | (PosInf | NegInf), (PosInf | NegInf) => NaN
  | PosInf, Num y => inf_of_sign (is_neg y)
  | NegInf, Num y => inf_of_sign (negb (is_neg y))
  end.

(** [Math.round]: the nearest integer, halves towards +Infinity. *)
Definition Math_round (a : JsNum) : JsNum :=
  match a with
  | Num x => of_Z (Qfloor (this x + (1 # 2)))
  | _ => a
  end.

(** [a || b] where [a] is a number or [undefined]. *)
Definition or_num (a : option JsNum) (b : JsNum) : JsNum :=
  match a with
  | Some n => if truthy_num n then n else b
  | None => b
  end.

(** [String.prototype.toLowerCase], on the letters A to Z: the other
    characters, and so every letter outside ASCII, are left as they
    are. *)
Definition lower_ascii (c : ascii) : ascii :=
  let n := N_of_ascii c in
  if ((65 <=? n) && (n <=? 90))%N then ascii_of_N (n + 32) else c.

Fixpoint toLowerCase (s : string) : string :=
  match s with
  | EmptyString => EmptyString
  | String c r => String (lower_ascii c) (toLowerCase r)
  end.

(** [ToBoolean] on a string or [undefined]: [undefined] and [""] are
    falsy. *)
Definition truthy_str (v : option string) : bool :=
  match v with
  | Some s => negb (String.eqb s "")
  | None => false
  end.

(** [Array.prototype.indexOf]. *)
Fixpoint indexOf_from (i : Z) (l : list string) (x : string) : Z :=
  match l with
  | [] => -1
  | y :: r => if String.eqb y x then i else indexOf_from (i + 1) r x
  end.

Definition indexOf (l : list string) (x : string) : Z := indexOf_from 0 l x.

(** [String.prototype.split] on a one-character separator. *)
Fixpoint split_from (sep : ascii) (cur : string) (s : string) : list string :=
  match s with
  | EmptyString => [String.rev cur]
  | String c r =>
      if Ascii.eqb c sep
      then String.rev cur :: split_from sep EmptyString r
      else split_from sep (String c cur) r
  end.

Definition split (sep : ascii) (s : string) : list string :=
  split_from sep EmptyString s.

(** [Array.prototype.slice(0, n)]: a negative [n] counts from the end. *)
Definition slice0 {A} (l : list A) (n : Z) : list A :=
  if n <? 0
  then take (Z.to_nat (Z.max (Z.of_nat (List.length l) + n) 0)) l
  else take (Z.to_nat n) l.

End Js.

Import Js.

(** ** Completions: a value, or a thrown exception *)

(** The identity of a player on the ladder service ([PlayerObject]). *)
Record PlayerObject := {
  regionId : Z;
  realmId : Z;
  profileId : Z;
}.

(** The four calls of the upstream client [server.sas]. *)
Inductive Call :=
| GetProfile (profile : PlayerObject)
| GetLegacyMatchHistory (profile : PlayerObject)
| GetLadderSummary (profile : PlayerObject)
| GetLadder (profile : PlayerObject) (ladderId : Z).

Inductive JsError :=
| TypeError
| SyntaxError
| MongoError
| Rejected (c : Call).

Inductive Completion (A : Type) :=
| Normal (a : A)
| Throw (e : JsError).
Arguments Normal {A} a.
Arguments Throw {A} e.

#[global] Instance completion_ret : MRet Completion := @Normal.
#[global] Instance completion_bind : MBind Completion := fun A B f m =>
  match m with
  | Normal a => f a
  | Throw e => Throw e
  end.
#[global] Instance completion_fmap : FMap Completion := fun A B f m =>
  match m with
  | Normal a => Normal (f a)
  | Throw e => Throw e
  end.

(** Reading a property of a value that may be [undefined]: a [TypeError]
    when it is. *)
Definition defined {A} (v : option A) : Completion A :=
  match v with
  | Some a => Normal a
  | None => Throw TypeError
  end.

(** ** Upstream payloads (the [data] member of each response) *)

Module ProfileApi.
Record Summary := {
  portrait : string;
  clanName : string;
  clanTag : string;
  displayName : string;
}.
Record Finish := { leagueName : option string }.
Record Career := {
  totalCareerGames : option JsNum;
  current1v1LeagueName : option string;
  currentBestTeamLeagueName : option string;
  best1v1Finish : option Finish;
  bestTeamFinish : option Finish;
}.
Record GameMode := { totalWins : JsNum }.
(** [seasonSnapshot] is an object keyed by game mode: its own
    properties in key order. *)
Record Snapshot := {
  seasonSnapshot : list (string * GameMode);
  totalRankedSeasonGamesPlayed : option JsNum;
}.
Record t := {
  summary : Summary;
  career : option Career;
  snapshot : option Snapshot;
}.
End ProfileApi.

Module MatchApi.
Record Match := {
  map : string;
  type : string;
  decision : string;
  date : JsNum;
}.
Record t := { matches : list Match }.
End MatchApi.

Module LadderApi.
Record TeamMember := {
  id : Z;
  displayName : string;
  favoriteRace : string;
}.
Record LadderTeam := {
  teamMembers : list TeamMember;
  wins : JsNum;
  losses : JsNum;
}.
Record RankAndPool := { rank : JsNum; mmr : JsNum }.
Record Membership := { localizedGameMode : string }.
Record t := {
  ladderTeams : list LadderTeam;
  ranksAndPools : list RankAndPool;
  currentLadderMembership : Membership;
}.
End LadderApi.

Module SummaryApi.
Record LadderMembership := { ladderId : Z }.
Record t := { allLadderMemberships : list LadderMembership }.
End SummaryApi.

(** ** The viewer payload *)

Module Heading.
Module Clan.
Record t := { name : string; tag : string }.
End Clan.
Record Portrait := { url : string; frame : string }.
Record Player := { clan : Clan.t; name : string; server : option string }.
Record t := { portrait : Portrait; player : Player }.
End Heading.

Module Stats.
Record t := {
  totalCareerGames : JsNum;
  totalRankedGamesThisSeason : option JsNum;
  seasonWinRatio : JsNum;
  highestSoloRank : string;
  highestTeamRank : string;
}.
End Stats.

Module LadderInfo.
Record t := {
  mode : string;
  rank : string;
  wins : JsNum;
  losses : JsNum;
  race : string;
  mmr : JsNum;
  divisionRank : JsNum;
  teamMembers : list string;
}.
End LadderInfo.

Module MatchRecord.
Record t := {
  mapName : string;
  mode : string;
  result : string;
  date : JsNum;
}.
End MatchRecord.

Record Details := {
  snapshot : list LadderInfo.t;
  stats : Stats.t;
  history : list MatchRecord.t;
}.

(** What [getProfileData] resolves to: the assembled payload
    [{heading, details}], or the empty object [{}] of its [catch]. *)
Inductive ProfileEntry :=
| Payload (heading : Heading.t) (details : Details)
| FailureMarker.

(** ** Pure helpers of the viewer plugin *)

Definition ranks : list string :=
  ["bronze"; "silver"; "gold"; "platinum"; "diamond"; "master"; "grandmaster"].

(** [x ? ranks.indexOf(x.toLowerCase()) : -1] *)
Definition rankIndex (label : option string) : Z :=
  match label with
  | Some s => if truthy_str label then indexOf ranks (toLowerCase s) else -1
  | None => -1
  end.

(** [x ? x.toLowerCase() : ''] *)
Definition lowerOrEmpty (label : option string) : string :=
  match label with
  | Some s => if truthy_str label then toLowerCase s else ""
  | None => ""
  end.

Definition calculateHighestRank (soloRank teamRank : option string) : string :=
  let soloRankIndex := rankIndex soloRank in
  let teamRankIndex := rankIndex teamRank in
  if soloRankIndex >? teamRankIndex
  then lowerOrEmpty soloRank
  else lowerOrEmpty teamRank.

(** [reduce] without an initial value throws on the empty array. *)
Definition reduce_add (values : list JsNum) : Completion JsNum :=
  match values with
  | [] => Throw TypeError
  | v :: rest => Normal (fold_left add rest v)
  end.

Definition calculateWins (seasonSnapshot : list (string * ProfileApi.GameMode))
  : Completion JsNum :=
  reduce_add (List.map (fun gameMode => ProfileApi.totalWins gameMode.2) seasonSnapshot).

Definition calculateSeasonWinRatio (apiData : option ProfileApi.Snapshot)
  : Completion JsNum :=
  s ← defined apiData;
  wins ← calculateWins (ProfileApi.seasonSnapshot s);
  let totalGames := to_number (ProfileApi.totalRankedSeasonGamesPlayed s) in
  mret (Math_round (div (mul wins (of_Z 100)) totalGames)).

Definition getHeading (apiData : ProfileApi.t) (regionName : option string)
  : Completion Heading.t :=
  let summary := ProfileApi.summary apiData in
  career ← defined (ProfileApi.career apiData);
  mret {|
    Heading.portrait := {|
      Heading.url := ProfileApi.portrait summary;
      Heading.frame := calculateHighestRank
        (ProfileApi.current1v1LeagueName career)
        (ProfileApi.currentBestTeamLeagueName career);
    |};
    Heading.player := {|
      Heading.clan := {|
        Heading.Clan.name := ProfileApi.clanName summary;
        Heading.Clan.tag := ProfileApi.clanTag summary;
      |};
      Heading.name := ProfileApi.displayName summary;
      Heading.server := regionName;
    |};
  |}.

(** [career?.<which>?.leagueName?.toLowerCase() || ''] *)
Definition finishRank (career : option ProfileApi.Career)
    (which : ProfileApi.Career -> option ProfileApi.Finish) : string :=
  let lowered : option string :=
    c ← career; finish ← which c; leagueName ← ProfileApi.leagueName finish;
    Some (toLowerCase leagueName) in
  if truthy_str lowered then default "" lowered else "".

Definition getStats (apiData : ProfileApi.t) : Completion Stats.t :=
  let snapshot := ProfileApi.snapshot apiData in
  let career := ProfileApi.career apiData in
  ratio ← calculateSeasonWinRatio snapshot;
  mret {|
    Stats.totalCareerGames :=
      or_num (c ← career; ProfileApi.totalCareerGames c) (of_Z 0);
    Stats.totalRankedGamesThisSeason :=
      (s ← snapshot; ProfileApi.totalRankedSeasonGamesPlayed s);
    Stats.seasonWinRatio := or_num (Some ratio) (of_Z 0);
    Stats.highestSoloRank := finishRank career ProfileApi.best1v1Finish;
    Stats.highestTeamRank := finishRank career ProfileApi.bestTeamFinish;
  |}.

Definition isMember (profileId : Z) (teamMember : LadderApi.TeamMember) : bool :=
  LadderApi.id teamMember =? profileId.

Definition getPlayerLadderInfo (apiData : LadderApi.t) (profileId : Z)
  : Completion LadderInfo.t :=
  rankAndPool ← defined (head (LadderApi.ranksAndPools apiData));
  let localizedGameMode :=
    split " " (LadderApi.localizedGameMode (LadderApi.currentLadderMembership apiData)) in
  word0 ← defined (localizedGameMode !! 0%nat);
  let mode := toLowerCase word0 in
  word1 ← defined (localizedGameMode !! 1%nat);
  rankName ←
    (if String.eqb (toLowerCase word1) "random"
     then toLowerCase <$> defined (localizedGameMode !! 2%nat)
     else mret (toLowerCase word1));
  playerLadderData ← defined (head (List.filter
    (fun ladderTeam => existsb (isMember profileId) (LadderApi.teamMembers ladderTeam))
    (LadderApi.ladderTeams apiData)));
  let teamMembers := LadderApi.teamMembers playerLadderData in
  let teamMemberNames := List.map LadderApi.displayName teamMembers in
  me ← defined (head (List.filter (isMember profileId) teamMembers));
  mret {|
    LadderInfo.mode := mode;
    LadderInfo.rank := rankName;
    LadderInfo.wins := LadderApi.wins playerLadderData;
    LadderInfo.losses := LadderApi.losses playerLadderData;
    LadderInfo.race := LadderApi.favoriteRace me;
    LadderInfo.mmr := LadderApi.mmr rankAndPool;
    LadderInfo.divisionRank := LadderApi.rank rankAndPool;
    LadderInfo.teamMembers := teamMemberNames;
  |}.

Definition notCustom (match_ : MatchApi.Match) : bool :=
  negb (String.eqb (MatchApi.type match_) "Custom").

Definition toMatchRecord (matchObject : MatchApi.Match) : MatchRecord.t := {|
  MatchRecord.mapName := MatchApi.map matchObject;
  MatchRecord.mode := MatchApi.type matchObject;
  MatchRecord.result := toLowerCase (MatchApi.decision matchObject);
  MatchRecord.date := mul (MatchApi.date matchObject) (of_Z 1000);
|}.

Definition getMatchHistory (apiData : MatchApi.t) : list MatchRecord.t :=
  let data := MatchApi.matches apiData in
  let filteredMatchHistory := List.filter notCustom data in
  List.map toMatchRecord filteredMatchHistory.

(** ** Asynchronous code: a virtual clock and a trace *)

(** A command sent to the cache backend ([server.redis]). *)
Inductive RedisCmd :=
| GET (key : string)
| SET (key value : string)
| EXPIRE (key : string) (seconds : Z).

Inductive Event :=
| Issued (c : Call) (at_ms : Z)
| Cache (c : RedisCmd) (at_ms : Z)
| LogInfo (msg : string) (at_ms : Z)
| TimerStarted (ms : Z) (at_ms : Z).

(** An [async] computation started at a time: its completion, the time
    at which it settles, and the events it caused. *)
Definition Outcome (A : Type) : Type := Completion A * Z * list Event.

Record M (A : Type) := Async { run : Z -> Outcome A }.
Arguments Async {A} run.
Arguments run {A} m t.

#[global] Instance async_ret : MRet M := fun A a =>
  Async (fun t => (Normal a, t, [])).
#[global] Instance async_bind : MBind M := fun A B f m =>
  Async (fun t =>
    match run m t with
    | (Normal a, t1, ev1) =>
        let '(c, t2, ev2) := run (f a) t1 in (c, t2, (ev1 ++ ev2)%list)
    | (Throw e, t1, ev1) => (Throw e, t1, ev1)
    end).

(** [try { body } catch { handler }] *)
Definition try_catch {A} (body : M A) (handler : M A) : M A :=
  Async (fun t =>
    match run body t with
    | (Normal a, t1, ev1) => (Normal a, t1, ev1)
    | (Throw _, t1, ev1) =>
        let '(c, t2, ev2) := run handler t1 in (c, t2, (ev1 ++ ev2)%list)
    end).

(** Synchronous code inside an [async] function. *)
Definition sync {A} (c : Completion A) : M A := Async (fun t => (c, t, [])).

Definition emit (e : Z -> Event) : M unit := Async (fun t => (Normal tt, t, [e t])).

(** What an expression handed to [await] evaluates to: [undefined], or
    a promise resolved by a timer. *)
Inductive Awaitable :=
| Undefined
| TimerPromise (due_ms : Z).

(** [new Promise(resolve => setTimeout(resolve, ms))] *)
Definition newTimerPromise (ms : Z) : M Awaitable :=
  Async (fun t => (Normal (TimerPromise (t + ms)), t, [TimerStarted ms t])).

(** [await v]: a value that is no promise resumes the function without
    any time passing; a timer promise resumes it when the timer fires. *)
Definition await (v : M Awaitable) : M unit :=
  a ← v;
  match a with
  | Undefined => mret tt
  | TimerPromise due => Async (fun t => (Normal tt, Z.max t due, []))
  end.

Definition settleTime {A} (o : Outcome A) : Z := o.1.2.

(** The rejection that settles first, if any; the earliest in the list
    among those that settle together. *)
Fixpoint earliestRejection {A} (os : list (Outcome A)) : option (JsError * Z) :=
  match os with
  | [] => None
  | (Normal _, _, _) :: rest => earliestRejection rest
  | (Throw e, t, _) :: rest =>
      match earliestRejection rest with
      | Some (e', t') => if t' <? t then Some (e', t') else Some (e, t)
      | None => Some (e, t)
      end
  end.

Fixpoint fulfilled {A} (os : list (Outcome A)) : list A :=
  match os with
  | [] => []
  | (Normal a, _, _) :: rest => a :: fulfilled rest
  | (Throw _, _, _) :: rest => fulfilled rest
  end.

Definition eventTime (e : Event) : Z :=
  match e with
  | Issued _ at_ms | Cache _ at_ms | LogInfo _ at_ms | TimerStarted _ at_ms => at_ms
  end.

(** Tasks that run together interleave: their events happen in the order
    of their times, and events of one time in the order in which the
    tasks were started. *)
Fixpoint insertByTime (e : Event) (l : list Event) : list Event :=
  match l with
  | [] => [e]
  | x :: rest =>
      if eventTime e <=? eventTime x then e :: l else x :: insertByTime e rest
  end.

Definition byTime (l : list Event) : list Event := foldr insertByTime [] l.

(** [Promise.all]: the tasks start together and their events interleave
    by time; the result keeps the tasks' order and is ready when the
    last one is; the first rejection rejects the whole. *)
Definition Promise_all {A} (tasks : list (M A)) : M (list A) :=
  Async (fun t =>
    let os := List.map (fun task => run task t) tasks in
    let events := byTime (concat (List.map snd os)) in
    match earliestRejection os with
    | Some (e, at_ms) => (Throw e, at_ms, events)
    | None => (Normal (fulfilled os), fold_right Z.max t (List.map settleTime os), events)
    end).

(** ** The cache backend *)

Record CacheEntry := {
  value : string;
  expiresAt : option Z;
}.

(** An entry past its expiry is as good as absent. *)
Definition live (now : Z) (e : CacheEntry) : bool :=
  match expiresAt e with
  | Some due => now <? due
  | None => true
  end.

Definition redisGet (store : gmap string CacheEntry) (now : Z) (key : string)
  : option string :=
  e ← store !! key;
  if live now e then Some (value e) else None.

Definition withExpiry (due : Z) (e : CacheEntry) : CacheEntry :=
  {| value := value e; expiresAt := Some due |}.

(** [SET] stores the value with no expiry; [EXPIRE] gives a live key an
    expiry [seconds] from now. *)
Definition redisExec (c : RedisCmd) (now : Z) (store : gmap string CacheEntry)
  : gmap string CacheEntry :=
  match c with
  | GET _ => store
  | SET key v => <[key := {| value := v; expiresAt := None |}]> store
  | EXPIRE key seconds =>
      match redisGet store now key with
      | Some _ => alter (withExpiry (now + seconds * 1000)) key store
      | None => store
      end
  end.

(** The server between two turns of the event loop: the clock, the
    cache, and the commands still to be issued by [async] calls that
    nobody awaits. *)
Record Server := {
  now : Z;
  redis : gmap string CacheEntry;
  detached : list (list RedisCmd);
}.

Definition atTime (t : Z) (s : Server) : Server :=
  {| now := t; redis := redis s; detached := detached s |}.

Definition issue (c : RedisCmd) (s : Server) : Server * Event :=
  ({| now := now s; redis := redisExec c (now s) (redis s); detached := detached s |},
   Cache c (now s)).

(** Calling an [async] function without [await]: it runs up to its first
    [await], so its first command is issued at once; the rest waits. *)
Definition spawn (commands : list RedisCmd) (s : Server) : Server * list Event :=
  match commands with
  | [] => (s, [])
  | c :: rest =>
      let '(s1, e) := issue c s in
      ({| now := now s1; redis := redis s1; detached := (detached s1 ++ [rest])%list |}, [e])
  end.

(** A later turn of the event loop: the [i]-th detached call issues its
    next command. *)
Definition resumeDetached (i : nat) (s : Server) : Server :=
  match detached s !! i with
  | Some (c :: rest) =>
      {| now := now s;
         redis := redisExec c (now s) (redis s);
         detached := <[i := rest]> (detached s) |}
  | _ => s
  end.

(** ** The viewer plugin *)

Record UpstreamClient := {
  getProfile : PlayerObject -> option ProfileApi.t;
  getLegacyMatchHistory : PlayerObject -> option MatchApi.t;
  getLadderSummary : PlayerObject -> option SummaryApi.t;
  getLadder : PlayerObject -> Z -> option LadderApi.t;
  latency : Call -> Z;
}.

(** What [getFreshData] returns: [{profiles: ...}], or the [[]] of its
    [catch]. *)
Inductive FreshData :=
| ProfilesObject (profiles : list ProfileEntry)
| EmptyArray.

Module DataObject.
Record t := {
  segment : string;
  data : FreshData;
  ttl : Z;
}.
End DataObject.

Record GetDataParams := {
  channelId : string;
  profiles : list PlayerObject;
  refresh : option bool;
}.

Section Viewer.

(** [server.sas], [StarCraft2API.getRegionNameById], whether
    [server.redis] is there, the plugin option [ttl], the time an
    awaited cache command takes to answer, and the JSON codec. *)
Variable sas : UpstreamClient.
Variable getRegionNameById : Z -> Completion (list string).
Variable cacheActive : bool.
Variable ttl : Z.
Variable redisLatency : Z.
Variable Json : Type.
Variable JSON_stringify : FreshData -> string.
Variable JSON_parse : option string -> Completion Json.

Inductive GetDataResult :=
| FromCache (decoded : Json)
| Fresh (fresh : FreshData).

(** An upstream call: a promise that settles after the call's latency,
    rejected when the client has no answer. *)
Definition request {A} (c : Call) (answer : option A) : M A :=
  Async (fun t =>
    (match answer with
     | Some a => Normal a
     | None => Throw (Rejected c)
     end, t + latency sas c, [Issued c t])).

(** An awaited [cache.get]: the command reads the store when it is
    issued, and the caller resumes when the answer is back. *)
Definition cacheGet (key : string) (s : Server) : option string * Server * list Event :=
  (redisGet (redis s) (now s) key, atTime (now s + redisLatency) s,
   [Cache (GET key) (now s)]).

Definition isDataCached (segment : string) (s : Server) : bool * Server * list Event :=
  if cacheActive
  then let '(cachedData, s1, ev) := cacheGet segment s in (truthy_str cachedData, s1, ev)
  else (false, s, []).

Definition cacheObject (d : DataObject.t) : list RedisCmd * string :=
  if negb cacheActive then ([], "Object not cached (Cache disabled)")
  else ([SET (DataObject.segment d) (JSON_stringify (DataObject.data d));
         EXPIRE (DataObject.segment d) (DataObject.ttl d)],
        "Object cached successfully").

Definition getCachedObject (segment : string) (s : Server)
  : option string * Server * list Event :=
  if cacheActive
  then cacheGet segment s
  else (Some "{}", s, []).

(** The body logs, creates a timer promise and drops it: there is no
    [return], so the call evaluates to [undefined]. *)
Definition sleep (ms : Z) : M Awaitable :=
  _ ← emit (LogInfo ("Sleeping for " +:+ pretty ms +:+ "ms..."));
  _ ← newTimerPromise ms;
  mret Undefined.

Definition getLadderData (profile : PlayerObject) (ladderId : Z) (index : Z)
  : M LadderInfo.t :=
  _ ← await (sleep ((index + 1) * 1000));
  ladderApiData ← request (GetLadder profile ladderId) (getLadder sas profile ladderId);
  sync (getPlayerLadderInfo ladderApiData (profileId profile)).

Definition getSnapshot (apiData : SummaryApi.t) (profile : PlayerObject)
  : M (list LadderInfo.t) :=
  let ladderIds := List.map SummaryApi.ladderId (SummaryApi.allLadderMemberships apiData) in
  Promise_all
    (imap (fun index ladderId => getLadderData profile ladderId (Z.of_nat index)) ladderIds).

Definition getProfileData (profile : PlayerObject) (index : Z) : M ProfileEntry :=
  try_catch
    (profileData ← request (GetProfile profile) (getProfile sas profile);
     _ ← await (sleep ((index + 1) * 1000));
     matchHistoryData ←
       request (GetLegacyMatchHistory profile) (getLegacyMatchHistory sas profile);
     _ ← await (sleep ((index + 1) * 1000));
     ladderSummaryData ←
       request (GetLadderSummary profile) (getLadderSummary sas profile);
     regionName ← sync (names ← getRegionNameById (regionId profile); mret (names !! 0%nat));
     heading ← sync (getHeading profileData regionName);
     _ ← await (sleep ((index + 1) * 1000));
     snapshot ← getSnapshot ladderSummaryData profile;
     stats ← sync (getStats profileData);
     let history := getMatchHistory matchHistoryData in
     mret (Payload heading
             {| snapshot := snapshot; stats := stats; history := history |}))
    (mret FailureMarker).

Definition getFreshData (profiles : list PlayerObject) (cacheSegment : string)
    (s : Server) : Completion FreshData * Server * list Event :=
  match run (Promise_all
               (imap (fun index profile => getProfileData profile (Z.of_nat index))
                     profiles)) (now s) with
  | (Normal profileData, t1, ev1) =>
      let '(s2, ev2) :=
        if cacheActive
        then spawn (cacheObject {|
               DataObject.segment := cacheSegment;
               DataObject.data := ProfilesObject profileData;
               DataObject.ttl := ttl |}).1 (atTime t1 s)
        else (atTime t1 s, []) in
      (Normal (ProfilesObject profileData), s2, (ev1 ++ ev2)%list)
  | (Throw _, t1, ev1) => (Normal EmptyArray, atTime t1 s, ev1)
  end.

Definition getData (params : GetDataParams) (s : Server)
  : Completion GetDataResult * Server * list Event :=
  let cacheSegment := "viewer-" +:+ channelId params in
  let '(isItCached, s1, ev1) := isDataCached cacheSegment s in
  if cacheActive && isItCached
  then
    let '(cachedData, s2, ev2) := getCachedObject cacheSegment s1 in
    (FromCache <$> JSON_parse cachedData, s2, (ev1 ++ ev2)%list)
  else
    let '(data, s', ev2) := getFreshData (profiles params) cacheSegment s1 in
    (Fresh <$> data, s', (ev1 ++ ev2)%list).

End Viewer.

(** ** The db plugin *)

Module Db.

(** A document of the [ChannelConfig] collection. *)
Record ChannelConfig := {
  channelId : Z;
  profiles : list PlayerObject;
}.

Module ConfigObject.
Record t := {
  channelId : Z;
  data : list PlayerObject;
}.
End ConfigObject.

(** The collection, and whether the connection can serve a query. *)
Record Mongo := {
  documents : list ChannelConfig;
  connected : bool;
}.

(** The three literals [get] returns. *)
Inductive GetResult :=
| Found (status : Z) (channelId : Z) (profiles : list PlayerObject)
| WithMessage (status : Z) (message : string)
| StatusOnly (status : Z).

Definition status (r : GetResult) : Z :=
  match r with
  | Found st _ _ | WithMessage st _ | StatusOnly st => st
  end.

Definition hasChannel (id : Z) (doc : ChannelConfig) : bool := channelId doc =? id.

(** [ChannelConfig.findOne({ channelId })] *)
Definition findOne (id : Z) (db : Mongo) : Completion (option ChannelConfig) :=
  if connected db then Normal (List.find (hasChannel id) (documents db))
  else Throw MongoError.

Fixpoint updateFirst (id : Z) (newProfiles : list PlayerObject)
    (docs : list ChannelConfig) : list ChannelConfig :=
  match docs with
  | [] => []
  | doc :: rest =>
      if hasChannel id doc
      then {| channelId := channelId doc; profiles := newProfiles |} :: rest
      else doc :: updateFirst id newProfiles rest
  end.

Section Plugin.

(** The plugin option, and the validators of the [ChannelConfig]
    schema, which [runValidators] applies to the update. *)
Variable maxPlayerProfileCount : Z.
Variable validators : list PlayerObject -> bool.

(** [ChannelConfig.findOneAndUpdate({ channelId }, { profiles },
    { upsert: true, runValidators: true })] *)
Definition findOneAndUpdate (id : Z) (newProfiles : list PlayerObject)
    (db : Mongo) : Completion (option ChannelConfig) * Mongo :=
  if negb (connected db) then (Throw MongoError, db)
  else if negb (validators newProfiles) then (Throw MongoError, db)
  else
    match List.find (hasChannel id) (documents db) with
    | Some old =>
        (Normal (Some old),
         {| documents := updateFirst id newProfiles (documents db);
            connected := connected db |})
    | None =>
        (Normal None,
         {| documents :=
              (documents db ++ [{| channelId := id; profiles := newProfiles |}])%list;
            connected := connected db |})
    end.

Definition save (config : ConfigObject.t) (db : Mongo) : bool * Mongo :=
  let channelId := ConfigObject.channelId config in
  let data := ConfigObject.data config in
  match findOneAndUpdate channelId (slice0 data maxPlayerProfileCount) db with
  | (Normal _, db') => (true, db')
  | (Throw _, db') => (false, db')
  end.

Definition get (channelId : Z) (db : Mongo) : GetResult :=
  match findOne channelId db with
  | Normal (Some data) => Found 200 (Db.channelId data) (profiles data)
  | Normal None => WithMessage 404 "No config found"
  | Throw _ => StatusOnly 400
  end.

End Plugin.

End Db.

(** ** Definitions used to state the theorems *)


Definition loweredLabel (label : option string) : string :=
  default "" (toLowerCase <$> label).




(** A season snapshot whose win counts are integers. *)
Definition integerSeason (wins : list (string * Z)) (games : option JsNum)
  : ProfileApi.Snapshot := {|
  ProfileApi.seasonSnapshot :=
    List.map (fun mode => (mode.1, {| ProfileApi.totalWins := of_Z mode.2 |})) wins;
  ProfileApi.totalRankedSeasonGamesPlayed := games;
|}.

Definition totalOf (first : string * Z) (others : list (string * Z)) : Z :=
  fold_left Z.add (List.map snd others) first.2.

(** The [seasonWinRatio] member of [getStats]:
    [calculateSeasonWinRatio(snapshot) || 0]. *)
Definition statsRatio (apiData : option ProfileApi.Snapshot) : Completion JsNum :=
  ratio ← calculateSeasonWinRatio apiData; mret (or_num (Some ratio) (of_Z 0)).

Definition isCustom (m : MatchApi.Match) : bool := String.eqb (MatchApi.type m) "Custom".

Definition completionOf {A} (o : Outcome A) : Completion A := o.1.1.
Definition eventsOf {A} (o : Outcome A) : list Event := o.2.

(** The upstream calls among some events. *)
Definition isIssued (e : Event) : bool :=
  match e with
  | Issued _ _ => true
  | _ => false
  end.

Definition issuedOnly (ev : list Event) : list Event := List.filter isIssued ev.

(** What one call of [sleep] leaves in the trace. *)
Definition sleepEvents (ms t : Z) : list Event :=
  [LogInfo ("Sleeping for " +:+ pretty ms +:+ "ms...") t; TimerStarted ms t].

(** What a computation yields when the clock and the thrown error are
    left out. *)
Definition ok {A} (c : Completion A) : option A :=
  match c with
  | Normal a => Some a
  | Throw _ => None
  end.

(** [yields m o]: whenever it is started, [m] fulfils with [a] if
    [o = Some a], and rejects if [o = None]. *)
Definition yields {A} (m : M A) (o : option A) : Prop :=
  ∀ t, ok (completionOf (run m t)) = o.

Definition cacheKey (params : GetDataParams) : string := "viewer-" +:+ channelId params.

Section AssemblySpec.

Variable sas : UpstreamClient.
Variable getRegionNameById : Z -> Completion (list string).

(** The assembly of one profile as the specification orders it, with
    clock and pacing left out: the four kinds of upstream answers go in,
    a payload comes out unless a step fails. *)
Definition ladderResult (profile : PlayerObject) (ladderId : Z) : option LadderInfo.t :=
  ladderApiData ← getLadder sas profile ladderId;
  ok (getPlayerLadderInfo ladderApiData (profileId profile)).

Definition assemble (profile : PlayerObject) : option ProfileEntry :=
  profileData ← getProfile sas profile;
  matchHistoryData ← getLegacyMatchHistory sas profile;
  ladderSummaryData ← getLadderSummary sas profile;
  regionName ← ok (names ← getRegionNameById (regionId profile); mret (names !! 0%nat));
  heading ← ok (getHeading profileData regionName);
  snapshot ← mapM (ladderResult profile)
    (List.map SummaryApi.ladderId (SummaryApi.allLadderMemberships ladderSummaryData));
  stats ← ok (getStats profileData);
  Some (Payload heading
          {| snapshot := snapshot; stats := stats;
             history := getMatchHistory matchHistoryData |}).

(** The slot of a profile in the batch result. *)
Definition slot (profile : PlayerObject) : ProfileEntry :=
  default FailureMarker (assemble profile).

(** The pipelines [getFreshData] hands to [Promise.all]. *)
Definition pipelines (profiles : list PlayerObject) : list (M ProfileEntry) :=
  imap (fun index profile =>
          getProfileData sas getRegionNameById profile (Z.of_nat index)) profiles.

Definition slots (profiles : list PlayerObject) : list ProfileEntry :=
  List.map slot profiles.

(** The entry written for a batch: the encoded result, no expiry yet. *)
Definition written (JSON_stringify : FreshData -> string)
    (profiles : list PlayerObject) : CacheEntry :=
  {| value := JSON_stringify (ProfilesObject (slots profiles)); expiresAt := None |}.

(** A payload is fully populated: every upstream call of its profile
    was answered, and heading, statistics, history and ladder snapshot
    are the transforms of those answers, one ladder result per
    membership. *)
Definition populated (profile : PlayerObject) (heading : Heading.t)
    (details : Details) : Prop :=
  ∃ profileData matchHistoryData ladderSummaryData names,
    getProfile sas profile = Some profileData
    ∧ getLegacyMatchHistory sas profile = Some matchHistoryData
    ∧ getLadderSummary sas profile = Some ladderSummaryData
    ∧ getRegionNameById (regionId profile) = Normal names
    ∧ getHeading profileData (names !! 0%nat) = Normal heading
    ∧ getStats profileData = Normal (stats details)
    ∧ history details = getMatchHistory matchHistoryData
    ∧ mapM (ladderResult profile)
        (List.map SummaryApi.ladderId (SummaryApi.allLadderMemberships ladderSummaryData))
      = Some (snapshot details).

End AssemblySpec.

(** ** A concrete deployment, for running the code *)

Module Sample.

Definition player (profileId : Z) : PlayerObject :=
  {| regionId := 1; realmId := 1; profileId := profileId |}.

Definition alice := player 101.
Definition bob := player 102.
Definition carol := player 103.

Definition seasonOf (games : option JsNum) : ProfileApi.Snapshot := {|
  ProfileApi.seasonSnapshot :=
    [("a", {| ProfileApi.totalWins := of_Z 3 |});
     ("b", {| ProfileApi.totalWins := of_Z 2 |})];
  ProfileApi.totalRankedSeasonGamesPlayed := games;
|}.

Definition profileOf (games : option JsNum) : ProfileApi.t := {|
  ProfileApi.summary := {|
    ProfileApi.portrait := "https://example.org/p.jpg";
    ProfileApi.clanName := "Clan";
    ProfileApi.clanTag := "CLN";
    ProfileApi.displayName := "Player";
  |};
  ProfileApi.career := Some {|
    ProfileApi.totalCareerGames := Some (of_Z 120);
    ProfileApi.current1v1LeagueName := Some "Diamond";
    ProfileApi.currentBestTeamLeagueName := Some "Master";
    ProfileApi.best1v1Finish := Some {| ProfileApi.leagueName := Some "Master" |};
    ProfileApi.bestTeamFinish := None;
  |};
  ProfileApi.snapshot := Some (seasonOf games);
|}.

Definition rawHistory : MatchApi.t := {|
  MatchApi.matches :=
    [{| MatchApi.map := "Y"; MatchApi.type := "Custom";
        MatchApi.decision := "Loss"; MatchApi.date := of_Z 900 |};
     {| MatchApi.map := "X"; MatchApi.type := "1v1";
        MatchApi.decision := "Win"; MatchApi.date := of_Z 1000 |}];
|}.

Definition ladderOf (profile : PlayerObject) : LadderApi.t := {|
  LadderApi.ladderTeams :=
    [{| LadderApi.teamMembers :=
          [{| LadderApi.id := profileId profile;
              LadderApi.displayName := "Player";
              LadderApi.favoriteRace := "zerg" |}];
        LadderApi.wins := of_Z 3;
        LadderApi.losses := of_Z 5 |}];
  LadderApi.ranksAndPools := [{| LadderApi.rank := of_Z 12; LadderApi.mmr := of_Z 3900 |}];
  LadderApi.currentLadderMembership := {| LadderApi.localizedGameMode := "1v1 Diamond" |};
|}.

(** A 2v2 ladder with three teams.  The first does not list [alice];
    the second lists her as its second member and once more, under
    another race, as its third; the third lists her too. *)
Definition member (id : Z) (displayName favoriteRace : string) : LadderApi.TeamMember :=
  {| LadderApi.id := id;
     LadderApi.displayName := displayName;
     LadderApi.favoriteRace := favoriteRace |}.

Definition rivalTeam : LadderApi.LadderTeam := {|
  LadderApi.teamMembers := [member 102 "Bob" "terran"; member 103 "Carol" "protoss"];
  LadderApi.wins := of_Z 20;
  LadderApi.losses := of_Z 1;
|}.

Definition aliceTeam : LadderApi.LadderTeam := {|
  LadderApi.teamMembers :=
    [member 103 "Carol" "protoss"; member 101 "Alice" "zerg"; member 101 "Alias" "random"];
  LadderApi.wins := of_Z 11;
  LadderApi.losses := of_Z 4;
|}.

Definition laterTeam : LadderApi.LadderTeam := {|
  LadderApi.teamMembers := [member 101 "Alice" "terran"; member 102 "Bob" "terran"];
  LadderApi.wins := of_Z 7;
  LadderApi.losses := of_Z 9;
|}.

Definition crowdedLadder : LadderApi.t := {|
  LadderApi.ladderTeams := [rivalTeam; aliceTeam; laterTeam];
  LadderApi.ranksAndPools :=
    [{| LadderApi.rank := of_Z 3; LadderApi.mmr := of_Z 4100 |};
     {| LadderApi.rank := of_Z 9; LadderApi.mmr := of_Z 2000 |}];
  LadderApi.currentLadderMembership := {| LadderApi.localizedGameMode := "2v2 Random Master" |};
|}.

(** The upstream client answers everything, except that it has no
    profile for [bob]; every call takes 40 ms. *)
Definition sas : UpstreamClient := {|
  getProfile p := if profileId p =? 102 then None else Some (profileOf (Some (of_Z 10)));
  getLegacyMatchHistory _ := Some rawHistory;
  getLadderSummary _ :=
    Some {| SummaryApi.allLadderMemberships :=
              [{| SummaryApi.ladderId := 7 |}; {| SummaryApi.ladderId := 8 |}] |};
  getLadder p _ := Some (ladderOf p);
  latency _ := 40;
|}.

Definition getRegionNameById (_ : Z) : Completion (list string) := Normal ["US"].

(** A stand-in codec: the encoding records how many entries were
    written; decoding hands the text back. *)
Definition JSON_stringify (d : FreshData) : string :=
  match d with
  | ProfilesObject entries => "{profiles:" +:+ pretty (List.length entries) +:+ "}"
  | EmptyArray => "[]"
  end.

Definition JSON_parse (text : option string) : Completion string :=
  match text with
  | Some "" => Throw SyntaxError
  | Some t => Normal t
  | None => Normal "null"
  end.

Definition emptyServer : Server := {| now := 0; redis := ∅; detached := [] |}.

Definition batchRequest (channelId : string) (refresh : option bool) : GetDataParams :=
  {| channelId := channelId; profiles := [alice; bob; carol]; refresh := refresh |}.

Definition getProfileData := getProfileData sas getRegionNameById.
Definition getData := getData sas getRegionNameById true 60 2 string JSON_stringify JSON_parse.
Definition getFreshData := getFreshData sas getRegionNameById true 60 JSON_stringify.

(** A server whose cache holds a live entry for channel c1. *)
Definition cachedServer : Server := {|
  now := 5;
  redis := {[ "viewer-c1" := {| value := "{profiles:3}"; expiresAt := Some 60000 |} ]};
  detached := [];
|}.

(** A server whose entry for channel c1 is live but holds the empty
    text. *)
Definition emptyTextServer : Server := {|
  now := 5;
  redis := {[ "viewer-c1" := {| value := ""; expiresAt := Some 60000 |} ]};
  detached := [];
|}.

(** The server right after a miss was served. *)
Definition afterMiss : Server :=
  (getData (batchRequest "c1" None) emptyServer).1.2.

Definition sampleMongo : Db.Mongo := {|
  Db.documents := [{| Db.channelId := 7; Db.profiles := [alice] |}];
  Db.connected := true;
|}.

(** A profile answered without a career, and a client that serves it. *)
Definition careerless : ProfileApi.t := {|
  ProfileApi.summary := ProfileApi.summary (profileOf None);
  ProfileApi.career := None;
  ProfileApi.snapshot := Some (seasonOf (Some (of_Z 10)));
|}.

Definition sasNoCareer : UpstreamClient := {|
  getProfile _ := Some careerless;
  getLegacyMatchHistory := getLegacyMatchHistory sas;
  getLadderSummary := getLadderSummary sas;
  getLadder := getLadder sas;
  latency := latency sas;
|}.

(** A client that rejects every call. *)
Definition sasDown : UpstreamClient := {|
  getProfile _ := None;
  getLegacyMatchHistory _ := None;
  getLadderSummary _ := None;
  getLadder _ _ := None;
  latency _ := 40;
|}.

Definition sampleConfig : Db.ConfigObject.t := {|
  Db.ConfigObject.channelId := 9;
  Db.ConfigObject.data := [alice; bob; carol];
|}.

End Sample.

(** ** Definitions used to state further properties *)

(** The upstream calls among some events, in the order of the trace. *)
Definition callsOf (ev : list Event) : list Call :=
  omap (fun e => match e with Issued c _ => Some c | _ => None end) ev.

(** A word: a string without a space. *)
Fixpoint noSpace (s : string) : bool :=
  match s with
  | EmptyString => true
  | String c r => negb (Ascii.eqb c " ") && noSpace r
  end.

(** The words of a ladder's [localizedGameMode]. *)
Definition modeWords (apiData : LadderApi.t) : list string :=
  split " " (LadderApi.localizedGameMode (LadderApi.currentLadderMembership apiData)).

(** A ladder team that lists the profile among its members. *)
Definition inTeam (profileId : Z) (ladderTeam : LadderApi.LadderTeam) : bool :=
  existsb (isMember profileId) (LadderApi.teamMembers ladderTeam).

(** The words do not name a rank: there is no second word, or the
    second word is "random" and there is no third. *)
Definition noRankWord (words : list string) : Prop :=
  words !! 1%nat = None
  ∨ ∃ word1, words !! 1%nat = Some word1
             ∧ toLowerCase word1 = "random" ∧ words !! 2%nat = None.

Definition ladderIdsOf (apiData : SummaryApi.t) : list Z :=
  List.map SummaryApi.ladderId (SummaryApi.allLadderMemberships apiData).

Definition sumZ (l : list Z) : Z := fold_right Z.add 0 l.

(** The rank named by the words of a game mode: the second word, or
    the third when the second is "random". *)
Definition rankNameOf (words : list string) : option string :=
  word1 ← words !! 1%nat;
  if String.eqb (toLowerCase word1) "random"
  then toLowerCase <$> words !! 2%nat
  else Some (toLowerCase word1).

(** A ladder whose game mode is the given text. *)
Definition withGameMode (text : string) (apiData : LadderApi.t) : LadderApi.t := {|
  LadderApi.ladderTeams := LadderApi.ladderTeams apiData;
  LadderApi.ranksAndPools := LadderApi.ranksAndPools apiData;
  LadderApi.currentLadderMembership := {| LadderApi.localizedGameMode := text |};
|}.

(** The upstream calls one profile's pipeline makes: it stops at the
    first call that is rejected, and reaches the ladders only when the
    heading could be built. *)
Definition upstreamCalls (sas : UpstreamClient)
    (getRegionNameById : Z -> Completion (list string)) (profile : PlayerObject)
  : list Call :=
  GetProfile profile ::
  match getProfile sas profile with
  | None => []
  | Some profileData =>
      GetLegacyMatchHistory profile ::
      match getLegacyMatchHistory sas profile with
      | None => []
      | Some _ =>
          GetLadderSummary profile ::
          match getLadderSummary sas profile with
          | None => []
          | Some ladderSummaryData =>
              match (names ← getRegionNameById (regionId profile);
                     getHeading profileData (names !! 0%nat)) with
              | Throw _ => []
              | Normal _ => List.map (GetLadder profile) (ladderIdsOf ladderSummaryData)
              end
          end
      end
  end.

(** The channels that have a document in the store. *)
Definition channelIds (db : Db.Mongo) : list Z := List.map Db.channelId (Db.documents db).

(** * JavaScript helpers *)

Example split_words : split " " "1v1 Diamond" = ["1v1"; "Diamond"].
Proof. reflexivity. Qed.

Example lower_word : toLowerCase "GrandMaster" = "grandmaster".
Proof. reflexivity. Qed.

Example round_half : Math_round (div (of_Z 5) (of_Z 2)) = of_Z 3.
Proof. vm_compute. reflexivity. Qed.

(** * Rank selection *)

Section RankLemmas.







Lemma lowerOrEmpty_loweredLabel (label : option string) :
  lowerOrEmpty label = loweredLabel label.
Proof.
  destruct label as [s|]; simpl; [|done].
  destruct (String.eqb_spec s "") as [->|]; done.
Qed.



End RankLemmas.



(** * Season statistics *)

Section NumLemmas.

Lemma of_Z_add (a b : Z) : add (of_Z a) (of_Z b) = of_Z (a + b).
Proof.
  unfold add, of_Z. f_equal. apply Qc_is_canon. unfold Qcplus, Q2Qc; simpl.
  rewrite !Qred_correct, inject_Z_plus. reflexivity.
Qed.

Lemma of_Z_mul (a b : Z) : mul (of_Z a) (of_Z b) = of_Z (a * b).
Proof.
  unfold mul, of_Z. f_equal. apply Qc_is_canon. unfold Qcmult, Q2Qc; simpl.
  rewrite !Qred_correct, inject_Z_mult. reflexivity.
Qed.

Lemma is_zero_of_Z (a : Z) : is_zero (Q2Qc (inject_Z a)) = (a =? 0).
Proof.
  unfold is_zero. simpl.
  destruct (Z.eqb_spec a 0) as [->|Hne]; [done|].
  apply not_true_is_false. intros H. apply Qeq_bool_eq in H.
  rewrite Qred_correct in H. unfold Qeq in H; simpl in H. lia.
Qed.

Lemma fold_add_of_Z (ws : list Z) (w : Z) :
  fold_left add (List.map of_Z ws) (of_Z w) = of_Z (fold_left Z.add ws w).
Proof.
  revert w. induction ws as [|x ws IH]; intros w; cbn [fold_left List.map]; [done|].
  by rewrite of_Z_add, IH.
Qed.

(** Rounding an integer quotient with a positive divisor: the nearest
    integer, halves upwards. *)
Lemma round_div_of_Z (a b : Z) :
  0 < b →
  Math_round (div (of_Z a) (of_Z b)) = of_Z ((2 * a + b) / (2 * b)).
Proof.
  intros Hb. unfold div, of_Z at 1 2. rewrite is_zero_of_Z.
  destruct (Z.eqb_spec b 0); [lia|]. unfold Math_round. f_equal.
  assert (this (Q2Qc (inject_Z a) / Q2Qc (inject_Z b))%Qc + (1 # 2)
          == (2 * a + b) # Z.to_pos (2 * b))%Q as ->.
  { unfold Qcdiv, Qcmult, Qcinv, Q2Qc; simpl. rewrite !Qred_correct.
    unfold Qeq, Qplus, Qmult, Qinv, inject_Z; simpl.
    destruct b as [|p|p]; try lia. simpl. lia. }
  unfold Qfloor. rewrite Z2Pos.id by lia. done.
Qed.

End NumLemmas.

Section SeasonLemmas.

Variables (first : string * Z) (others : list (string * Z)).

Lemma calculateWins_integerSeason (games : option JsNum) :
  calculateWins (ProfileApi.seasonSnapshot (integerSeason (first :: others) games))
  = Normal (of_Z (totalOf first others)).
Proof.
  unfold calculateWins, integerSeason, totalOf. cbn [ProfileApi.seasonSnapshot List.map reduce_add].
  f_equal. rewrite <- fold_add_of_Z. f_equal.
  rewrite !List.map_map. done.
Qed.

(** With a positive number of games the ratio is the percentage of
    wins, rounded to the nearest integer. *)
Lemma calculateSeasonWinRatio_rounds (games : Z) :
  0 < games →
  calculateSeasonWinRatio (Some (integerSeason (first :: others) (Some (of_Z games))))
  = Normal (of_Z ((2 * (totalOf first others * 100) + games) / (2 * games))).
Proof.
  intros Hgames. unfold calculateSeasonWinRatio.
  cbn [defined mbind completion_bind]. rewrite calculateWins_integerSeason.
  cbn [mbind completion_bind mret completion_ret integerSeason
       ProfileApi.totalRankedSeasonGamesPlayed to_number default from_option id].
  by rewrite of_Z_mul, round_div_of_Z.
Qed.

(** Without a number of games the division yields NaN, which [|| 0]
    turns into 0. *)
Lemma statsRatio_missing_games :
  statsRatio (Some (integerSeason (first :: others) None)) = Normal (of_Z 0).
Proof.
  unfold statsRatio, calculateSeasonWinRatio.
  cbn [defined mbind completion_bind]. rewrite calculateWins_integerSeason.
  cbn [mbind completion_bind mret completion_ret integerSeason
       ProfileApi.totalRankedSeasonGamesPlayed to_number default from_option id].
  by rewrite of_Z_mul.
Qed.

Lemma ratio_zero_games :
  calculateSeasonWinRatio (Some (integerSeason (first :: others) (Some (of_Z 0))))
  = Normal (if totalOf first others =? 0 then NaN
            else if totalOf first others <? 0 then NegInf else PosInf).
Proof.
  unfold calculateSeasonWinRatio.
  cbn [defined mbind completion_bind]. rewrite calculateWins_integerSeason.
  cbn [mbind completion_bind mret completion_ret integerSeason
       ProfileApi.totalRankedSeasonGamesPlayed to_number default from_option id].
  rewrite of_Z_mul. unfold div, of_Z. rewrite !is_zero_of_Z. simpl (0 =? 0).
  cbn iota. destruct (Z.eqb_spec (totalOf first others * 100) 0) as [H0|H0];
    destruct (Z.eqb_spec (totalOf first others) 0) as [H1|H1]; try lia; [done|].
  unfold Math_round, inf_of_sign, is_neg. f_equal.
  destruct (Z.ltb_spec (totalOf first others) 0) as [Hneg|Hpos].
  - replace (Qle_bool 0 _) with false; [done|]. symmetry.
    apply not_true_is_false. intros H. apply Qle_bool_iff in H.
    simpl in H. rewrite Qred_correct in H. unfold Qle in H; simpl in H. lia.
  - replace (Qle_bool 0 _) with true; [done|]. symmetry.
    apply Qle_bool_iff. simpl. rewrite Qred_correct. unfold Qle; simpl. lia.
Qed.

(** No games and no wins: 0/0 is NaN, and the statistic is 0. *)
Lemma statsRatio_zero_games_no_wins :
  totalOf first others = 0 →
  statsRatio (Some (integerSeason (first :: others) (Some (of_Z 0)))) = Normal (of_Z 0).
Proof.
  intros H. unfold statsRatio. rewrite ratio_zero_games, H. done.
Qed.

(** No games but some wins: the quotient is +Infinity, which [|| 0]
    lets through. *)
Lemma statsRatio_zero_games_some_wins :
  0 < totalOf first others →
  statsRatio (Some (integerSeason (first :: others) (Some (of_Z 0)))) = Normal PosInf.
Proof.
  intros H. unfold statsRatio. rewrite ratio_zero_games.
  destruct (Z.eqb_spec (totalOf first others) 0); [lia|].
  destruct (Z.ltb_spec (totalOf first others) 0); [lia|done].
Qed.

End SeasonLemmas.

Lemma getStats_seasonWinRatio (apiData : ProfileApi.t) :
  Stats.seasonWinRatio <$> getStats apiData = statsRatio (ProfileApi.snapshot apiData).
Proof.
  unfold getStats, statsRatio.
  by destruct (calculateSeasonWinRatio (ProfileApi.snapshot apiData)).
Qed.

(** C2: the code at the specification's own second example.  With wins
    3 and 2 and [totalRankedSeasonGamesPlayed = 0] the statistic is
    +Infinity, where the claim says 0; with 10 games it is 50, and with
    the number of games missing it is 0, as claimed. *)
Theorem seasonWinRatio_zero_games_is_infinite :
  Stats.seasonWinRatio <$> getStats (Sample.profileOf (Some (of_Z 0))) = Normal PosInf
  ∧ Stats.seasonWinRatio <$> getStats (Sample.profileOf (Some (of_Z 10))) = Normal (of_Z 50)
  ∧ Stats.seasonWinRatio <$> getStats (Sample.profileOf None) = Normal (of_Z 0).
Proof. by vm_compute. Qed.

(** * Match history *)

Lemma getMatchHistory_cons (m : MatchApi.Match) (rest : list MatchApi.Match) :
  getMatchHistory {| MatchApi.matches := m :: rest |} =
    if isCustom m then getMatchHistory {| MatchApi.matches := rest |}
    else toMatchRecord m :: getMatchHistory {| MatchApi.matches := rest |}.
Proof.
  unfold getMatchHistory, isCustom; simpl. unfold notCustom at 1.
  by destruct (String.eqb (MatchApi.type m) "Custom").
Qed.

Lemma getMatchHistory_In (data : MatchApi.t) (r : MatchRecord.t) :
  In r (getMatchHistory data) ↔
  ∃ m, In m (MatchApi.matches data) ∧ MatchApi.type m ≠ "Custom" ∧ r = toMatchRecord m.
Proof.
  unfold getMatchHistory. rewrite in_map_iff. split.
  - intros (m & <- & Hin). apply filter_In in Hin as [Hin Hnc]. exists m.
    split; [done|]. split; [|done]. unfold notCustom in Hnc.
    by destruct (String.eqb_spec (MatchApi.type m) "Custom").
  - intros (m & Hin & Hnc & ->). exists m. split; [done|]. apply filter_In.
    split; [done|]. unfold notCustom.
    by destruct (String.eqb_spec (MatchApi.type m) "Custom").
Qed.

(** C7: the transformed history drops exactly the matches of type
    "Custom" and turns every other match, in order, into
    [{mapName: map, mode: type, result: decision lower-cased,
    date: date * 1000}]; the documented example yields the single record
    [{mapName: "X", mode: "1v1", result: "win", date: 1000000}]. *)
Theorem getMatchHistory_filters_and_maps :
  getMatchHistory {| MatchApi.matches := [] |} = []
  ∧ (∀ m rest,
       getMatchHistory {| MatchApi.matches := m :: rest |} =
         if String.eqb (MatchApi.type m) "Custom"
         then getMatchHistory {| MatchApi.matches := rest |}
         else {| MatchRecord.mapName := MatchApi.map m;
                 MatchRecord.mode := MatchApi.type m;
                 MatchRecord.result := toLowerCase (MatchApi.decision m);
                 MatchRecord.date := mul (MatchApi.date m) (of_Z 1000) |}
              :: getMatchHistory {| MatchApi.matches := rest |})
  ∧ (∀ data r,
       In r (getMatchHistory data) ↔
       ∃ m, In m (MatchApi.matches data) ∧ MatchApi.type m ≠ "Custom" ∧
            r = toMatchRecord m)
  ∧ (∀ m seconds,
       MatchApi.date m = of_Z seconds →
       MatchRecord.date (toMatchRecord m) = of_Z (seconds * 1000))
  ∧ getMatchHistory {| MatchApi.matches :=
        [{| MatchApi.map := "Y"; MatchApi.type := "Custom";
            MatchApi.decision := "Loss"; MatchApi.date := of_Z 900 |};
         {| MatchApi.map := "X"; MatchApi.type := "1v1";
            MatchApi.decision := "Win"; MatchApi.date := of_Z 1000 |}] |}
    = [{| MatchRecord.mapName := "X"; MatchRecord.mode := "1v1";
          MatchRecord.result := "win"; MatchRecord.date := of_Z 1000000 |}].
Proof.
  split; [done|]. split; [exact getMatchHistory_cons|].
  split; [exact getMatchHistory_In|]. split; [|by vm_compute].
  intros m seconds Hdate. simpl. by rewrite Hdate, of_Z_mul.
Qed.

(** The example of C7, obtained from the theorem's equations. *)
Lemma getMatchHistory_filters_and_maps_witness :
  MatchApi.date (List.nth 1 (MatchApi.matches Sample.rawHistory)
                   {| MatchApi.map := ""; MatchApi.type := "";
                      MatchApi.decision := ""; MatchApi.date := NaN |}) = of_Z 1000
  ∧ MatchRecord.date <$> getMatchHistory Sample.rawHistory = [of_Z (1000 * 1000)].
Proof.
  split; [reflexivity|].
  destruct getMatchHistory_filters_and_maps as (Hnil & Hcons & _ & Hdate & _).
  unfold Sample.rawHistory. rewrite Hcons. simpl String.eqb. cbn iota.
  rewrite Hcons. simpl String.eqb. cbn iota. rewrite Hnil.
  exact (f_equal (fun x => [x])
           (Hdate {| MatchApi.map := "X"; MatchApi.type := "1v1";
                     MatchApi.decision := "Win"; MatchApi.date := of_Z 1000 |}
                  1000 eq_refl)).
Defined.

(** * Pacing *)

(** Awaiting what [sleep] returns resumes at the very time of the call:
    the timer it started resolves a promise nobody holds. *)
Lemma await_sleep_resumes_at_once (ms t : Z) :
  run (await (sleep ms)) t = (Normal tt, t, sleepEvents ms t).
Proof. reflexivity. Qed.

(** Awaiting the timer promise itself would suspend for [ms]. *)
Lemma await_timer_suspends (ms t : Z) :
  0 <= ms → run (await (newTimerPromise ms)) t = (Normal tt, t + ms, [TimerStarted ms t]).
Proof. intros H. unfold await, newTimerPromise; simpl. do 2 f_equal. lia. Qed.

Lemma run_bind {A B} (m : M A) (f : A → M B) (t : Z) :
  run (m ≫= f) t =
    match run m t with
    | (Normal a, t1, ev1) =>
        let '(c, t2, ev2) := run (f a) t1 in (c, t2, (ev1 ++ ev2)%list)
    | (Throw e, t1, ev1) => (Throw e, t1, ev1)
    end.
Proof. reflexivity. Qed.

Lemma run_try_catch {A} (body handler : M A) (t : Z) :
  run (try_catch body handler) t =
    match run body t with
    | (Normal a, t1, ev1) => (Normal a, t1, ev1)
    | (Throw _, t1, ev1) =>
        let '(c, t2, ev2) := run handler t1 in (c, t2, (ev1 ++ ev2)%list)
    end.
Proof. reflexivity. Qed.

Lemma run_request {A} (sas : UpstreamClient) (c : Call) (answer : option A) (t : Z) :
  run (request sas c answer) t =
    (match answer with Some a => Normal a | None => Throw (Rejected c) end,
     t + latency sas c, [Issued c t]).
Proof. reflexivity. Qed.

Section PacingLemmas.

Variable sas : UpstreamClient.
Variable getRegionNameById : Z -> Completion (list string).

(** For every index, each call of a profile's pipeline is issued the
    moment the previous one settles. *)
Lemma getProfileData_issue_times (profile : PlayerObject) (index t : Z)
    (profileData : ProfileApi.t) (matchHistoryData : MatchApi.t) :
  getProfile sas profile = Some profileData →
  getLegacyMatchHistory sas profile = Some matchHistoryData →
  let t1 := t + latency sas (GetProfile profile) in
  let t2 := t1 + latency sas (GetLegacyMatchHistory profile) in
  ∃ rest,
    eventsOf (run (getProfileData sas getRegionNameById profile index) t) =
      ([Issued (GetProfile profile) t]
       ++ sleepEvents ((index + 1) * 1000) t1
       ++ [Issued (GetLegacyMatchHistory profile) t1]
       ++ sleepEvents ((index + 1) * 1000) t2
       ++ [Issued (GetLadderSummary profile) t2]
       ++ rest)%list.
Proof.
  intros Hprofile Hhistory t1 t2.
  unfold eventsOf, getProfileData. rewrite run_try_catch.
  rewrite run_bind, run_request, Hprofile.
  rewrite run_bind, await_sleep_resumes_at_once.
  rewrite run_bind, run_request, Hhistory.
  rewrite run_bind, await_sleep_resumes_at_once.
  rewrite run_bind, run_request.
  fold t1 t2.
  destruct (getLadderSummary sas profile) as [ladderSummaryData|].
  - destruct (run _ _) as [[c t3] ev]. destruct c; cbn; eexists; reflexivity.
  - cbn. eexists; reflexivity.
Qed.

End PacingLemmas.

(** C1: the code at profile index 0, with every upstream call taking
    40 ms.  The claim wants each paced call issued (0 + 1) * 1000 ms
    after the previous one settled; the calls go out at 40, 80 and 120 ms,
    the moment the previous one settles, because awaiting [sleep]'s
    result suspends for no time at all (awaiting the timer promise would
    suspend until 1040 ms). *)
Theorem getProfileData_sleep_does_not_suspend :
  eventsOf (run (Sample.getProfileData Sample.alice 0) 0) =
    [Issued (GetProfile Sample.alice) 0;
     LogInfo "Sleeping for 1000ms..." 40; TimerStarted 1000 40;
     Issued (GetLegacyMatchHistory Sample.alice) 40;
     LogInfo "Sleeping for 1000ms..." 80; TimerStarted 1000 80;
     Issued (GetLadderSummary Sample.alice) 80;
     LogInfo "Sleeping for 1000ms..." 120; TimerStarted 1000 120;
     LogInfo "Sleeping for 1000ms..." 120; TimerStarted 1000 120;
     Issued (GetLadder Sample.alice 7) 120;
     LogInfo "Sleeping for 2000ms..." 120; TimerStarted 2000 120;
     Issued (GetLadder Sample.alice 8) 120]
  ∧ issuedOnly (eventsOf (run (Sample.getProfileData Sample.alice 0) 0)) =
    [Issued (GetProfile Sample.alice) 0;
     Issued (GetLegacyMatchHistory Sample.alice) 40;
     Issued (GetLadderSummary Sample.alice) 80;
     Issued (GetLadder Sample.alice 7) 120;
     Issued (GetLadder Sample.alice 8) 120]
  ∧ settleTime (run (await (sleep ((0 + 1) * 1000))) 40) = 40
  ∧ settleTime (run (await (newTimerPromise ((0 + 1) * 1000))) 40) = 1040.
Proof. by vm_compute. Qed.

(** * Batch assembly *)

Section YieldLemmas.

Context {A B : Type}.

Lemma yields_sync (c : Completion A) : yields (sync c) (ok c).
Proof. by intros t. Qed.

Lemma yields_ret (a : A) : yields (mret a) (Some a).
Proof. by intros t. Qed.

Lemma yields_request (sas : UpstreamClient) (c : Call) (answer : option A) :
  yields (request sas c answer) answer.
Proof. intros t. rewrite run_request. by destruct answer. Qed.

Lemma yields_bind (m : M A) (f : A → M B) (o : option A) (g : A → option B) :
  yields m o → (∀ a, yields (f a) (g a)) → yields (m ≫= f) (o ≫= g).
Proof.
  intros Hm Hf t. rewrite run_bind. specialize (Hm t).
  unfold completionOf in *. destruct (run m t) as [[[a|e] t1] ev]; simpl in Hm; subst o.
  - specialize (Hf a t1). simpl. by destruct (run (f a) t1) as [[c t2] ev2].
  - done.
Qed.

Lemma yields_try_catch (body : M A) (o : option A) (fallback : A) :
  yields body o → yields (try_catch body (mret fallback)) (Some (default fallback o)).
Proof.
  intros Hbody t. rewrite run_try_catch. specialize (Hbody t).
  unfold completionOf in *.
  by destruct (run body t) as [[[a|e] t1] ev]; simpl in Hbody; subst o.
Qed.

Lemma fulfilled_mapM (os : list (Outcome A)) (answers : list (option A)) :
  Forall2 (fun o answer => ok (completionOf o) = answer) os answers →
  match mapM id answers with
  | Some results => earliestRejection os = None ∧ fulfilled os = results
  | None => is_Some (earliestRejection os)
  end.
Proof.
  induction 1 as [|[[[a|e] t] ev] answer os answers Hhead _ IH];
    unfold completionOf in *; simpl in *; [done| |]; subst answer; simpl.
  - destruct (mapM id answers) as [results|]; simpl; [|done].
    destruct IH as [-> ->]. done.
  - destruct (earliestRejection os) as [[e' t']|]; [|done]. by destruct (t' <? t).
Qed.

Lemma yields_Promise_all (tasks : list (M A)) (answers : list (option A)) :
  Forall2 yields tasks answers → yields (Promise_all tasks) (mapM id answers).
Proof.
  intros Hall t.
  assert (Forall2 (fun o answer => ok (completionOf o) = answer)
            (List.map (fun task => run task t) tasks) answers) as Hos.
  { induction Hall; simpl; constructor; auto. }
  apply fulfilled_mapM in Hos. unfold Promise_all, completionOf; cbn [run].
  destruct (mapM id answers) as [results|].
  - destruct Hos as [-> ->]. done.
  - destruct Hos as [[e t'] ->]. done.
Qed.

End YieldLemmas.

Section Assembly.

Variable sas : UpstreamClient.
Variable getRegionNameById : Z -> Completion (list string).

Lemma yields_after_sleep {A} (ms : Z) (rest : M A) (o : option A) :
  yields rest o → yields (await (sleep ms) ≫= fun _ => rest) o.
Proof.
  intros Hrest t. rewrite run_bind, await_sleep_resumes_at_once.
  specialize (Hrest t). unfold completionOf in *.
  by destruct (run rest t) as [[c t2] ev2].
Qed.

Lemma yields_getLadderData (profile : PlayerObject) (ladderId index : Z) :
  yields (getLadderData sas profile ladderId index) (ladderResult sas profile ladderId).
Proof.
  unfold getLadderData, ladderResult. apply yields_after_sleep.
  apply yields_bind; [apply yields_request|]. intros a. apply yields_sync.
Qed.

Lemma yields_imap {X A} (g : nat → X → M A) (f : X → option A) (l : list X) :
  (∀ i x, yields (g i x) (f x)) → Forall2 yields (imap g l) (List.map f l).
Proof.
  intros Hg. revert g Hg. induction l as [|x l IH]; intros g Hg; [constructor|].
  rewrite imap_cons. simpl. constructor; [apply Hg|]. apply IH. intros i y. apply Hg.
Qed.

Lemma mapM_id_map {X A} (f : X → option A) (l : list X) :
  mapM id (List.map f l) = mapM f l.
Proof. induction l as [|x l IH]; simpl; [done|]. by rewrite IH. Qed.

Lemma yields_getSnapshot (apiData : SummaryApi.t) (profile : PlayerObject) :
  yields (getSnapshot sas apiData profile)
    (mapM (ladderResult sas profile)
       (List.map SummaryApi.ladderId (SummaryApi.allLadderMemberships apiData))).
Proof.
  unfold getSnapshot. rewrite <- mapM_id_map. apply yields_Promise_all.
  apply yields_imap. intros i ladderId. apply yields_getLadderData.
Qed.

(** Whatever its index and its starting time, the pipeline of a profile
    fulfils -- it never rejects -- with the slot of that profile. *)
Lemma yields_getProfileData (profile : PlayerObject) (index : Z) :
  yields (getProfileData sas getRegionNameById profile index)
    (Some (slot sas getRegionNameById profile)).
Proof.
  unfold getProfileData, slot. apply yields_try_catch. unfold assemble.
  apply yields_bind; [apply yields_request|]. intros profileData.
  apply yields_after_sleep.
  apply yields_bind; [apply yields_request|]. intros matchHistoryData.
  apply yields_after_sleep.
  apply yields_bind; [apply yields_request|]. intros ladderSummaryData.
  apply yields_bind; [apply yields_sync|]. intros regionName.
  apply yields_bind; [apply yields_sync|]. intros heading.
  apply yields_after_sleep.
  apply yields_bind; [apply yields_getSnapshot|]. intros snapshot.
  apply yields_bind; [apply yields_sync|]. intros stats.
  apply yields_ret.
Qed.

Lemma getProfileData_fulfils (profile : PlayerObject) (index t : Z) :
  completionOf (run (getProfileData sas getRegionNameById profile index) t)
  = Normal (slot sas getRegionNameById profile).
Proof.
  pose proof (yields_getProfileData profile index t) as H.
  by destruct (completionOf _) as [a|e]; simpl in H; simplify_eq.
Qed.

End Assembly.

Section Batch.

Variable sas : UpstreamClient.
Variable getRegionNameById : Z -> Completion (list string).
Variable cacheActive : bool.
Variable ttl : Z.
Variable JSON_stringify : FreshData -> string.

Lemma mapM_Some_map {X A} (f : X → A) (l : list X) :
  mapM (fun x => Some (f x)) l = Some (List.map f l).
Proof. induction l as [|x l IH]; simpl; [done|]. by rewrite IH. Qed.

Lemma pipelines_fulfil (profiles : list PlayerObject) (t : Z) :
  completionOf (run (Promise_all (pipelines sas getRegionNameById profiles)) t)
  = Normal (slots sas getRegionNameById profiles).
Proof.
  assert (yields (Promise_all (pipelines sas getRegionNameById profiles))
            (Some (slots sas getRegionNameById profiles))) as H.
  { unfold slots. rewrite <- mapM_Some_map, <- mapM_id_map.
    apply yields_Promise_all, yields_imap.
    intros i profile. apply yields_getProfileData. }
  specialize (H t). by destruct (completionOf _) as [a|e]; simpl in H; simplify_eq.
Qed.

(** [getFreshData] step by step: the batch settles at some time with
    the slots of the profiles; with the cache active the [SET] is
    issued then, and the [EXPIRE] is left to the detached call. *)
Lemma getFreshData_run (profiles : list PlayerObject) (cacheSegment : string)
    (s : Server) :
  ∃ t1 ev1,
    getFreshData sas getRegionNameById cacheActive ttl JSON_stringify
      profiles cacheSegment s
    = let entry := written sas getRegionNameById JSON_stringify profiles in
      (Normal (ProfilesObject (slots sas getRegionNameById profiles)),
       (if cacheActive
        then {| now := t1;
                redis := <[cacheSegment := entry]> (redis s);
                detached := (detached s ++ [[EXPIRE cacheSegment ttl]])%list |}
        else atTime t1 s),
       (ev1 ++ if cacheActive
               then [Cache (SET cacheSegment (value entry)) t1]
               else [])%list).
Proof.
  unfold getFreshData. fold (pipelines sas getRegionNameById profiles).
  pose proof (pipelines_fulfil profiles (now s)) as H. unfold completionOf in H.
  destruct (run (Promise_all (pipelines sas getRegionNameById profiles)) (now s))
    as [[c t1] ev1].
  simpl in H; subst c. exists t1, ev1.
  unfold cacheObject. destruct cacheActive; done.
Qed.

End Batch.

Lemma assemble_populated (sas : UpstreamClient)
    (getRegionNameById : Z -> Completion (list string))
    (profile : PlayerObject) (heading : Heading.t) (details : Details) :
  assemble sas getRegionNameById profile = Some (Payload heading details) ↔
  populated sas getRegionNameById profile heading details.
Proof.
  unfold assemble, populated. split.
  - intros H.
    destruct (getProfile sas profile) as [profileData|]; [|done].
    destruct (getLegacyMatchHistory sas profile) as [matchHistoryData|]; [|done].
    destruct (getLadderSummary sas profile) as [ladderSummaryData|]; [|done].
    simpl in H.
    destruct (getRegionNameById (regionId profile)) as [names|]; [|done].
    simpl in H.
    destruct (getHeading profileData (names !! 0%nat)) as [h|] eqn:Hheading; [|done].
    simpl in H.
    destruct (mapM _ _) as [snap|] eqn:Hsnap; [|done]. simpl in H.
    destruct (getStats profileData) as [st|] eqn:Hstats; [|done]. simpl in H.
    simplify_eq. by exists profileData, matchHistoryData, ladderSummaryData, names.
  - intros (profileData & matchHistoryData & ladderSummaryData & names
            & -> & -> & -> & Hnames & Hheading & Hstats & Hhistory & Hsnap).
    simpl. rewrite Hnames. simpl. rewrite Hheading. simpl. rewrite Hsnap. simpl.
    rewrite Hstats. simpl. rewrite <- Hhistory. by destruct details.
Qed.

Lemma slot_cases (sas : UpstreamClient)
    (getRegionNameById : Z -> Completion (list string)) (profile : PlayerObject) :
  (assemble sas getRegionNameById profile = None
   ∧ slot sas getRegionNameById profile = FailureMarker)
  ∨ ∃ heading details,
      slot sas getRegionNameById profile = Payload heading details
      ∧ populated sas getRegionNameById profile heading details.
Proof.
  unfold slot. destruct (assemble sas getRegionNameById profile) as [entry|] eqn:H.
  - right. assert (∃ h d, entry = Payload h d) as (h & d & ->).
    { unfold assemble in H.
      repeat match type of H with
             | (?o ≫= _) = Some _ => destruct o; simpl in H; [|done]
             end.
      simplify_eq. eauto. }
    exists h, d. split; [done|]. by apply assemble_populated.
  - left. done.
Qed.

(** C6: the batch result has one slot per profile, in the order of the
    input; the slot of a profile depends on that profile's upstream
    answers alone; it is the failure marker when its assembly failed
    -- in particular when [getProfile] failed -- and otherwise a payload
    with heading, snapshot, statistics and history all in place. *)
Theorem getFreshData_order_and_isolation (sas : UpstreamClient)
    (getRegionNameById : Z -> Completion (list string)) (cacheActive : bool)
    (ttl : Z) (JSON_stringify : FreshData -> string)
    (profiles : list PlayerObject) (cacheSegment : string) (s : Server) :
  let results := List.map (slot sas getRegionNameById) profiles in
  (getFreshData sas getRegionNameById cacheActive ttl JSON_stringify
     profiles cacheSegment s).1.1 = Normal (ProfilesObject results)
  ∧ List.length results = List.length profiles
  ∧ (∀ (i : nat) profile,
       profiles !! i = Some profile →
       results !! i = Some (slot sas getRegionNameById profile))
  ∧ (∀ profile,
       slot sas getRegionNameById profile = FailureMarker
       ∨ ∃ heading details,
           slot sas getRegionNameById profile = Payload heading details
           ∧ populated sas getRegionNameById profile heading details)
  ∧ (∀ profile,
       getProfile sas profile = None
       ∨ getLegacyMatchHistory sas profile = None
       ∨ getLadderSummary sas profile = None
       ∨ (∃ ladderSummaryData membership,
            getLadderSummary sas profile = Some ladderSummaryData
            ∧ In membership (SummaryApi.allLadderMemberships ladderSummaryData)
            ∧ getLadder sas profile (SummaryApi.ladderId membership) = None) →
       slot sas getRegionNameById profile = FailureMarker)
  ∧ (∀ profile heading details,
       populated sas getRegionNameById profile heading details →
       slot sas getRegionNameById profile = Payload heading details).
Proof.
  intros results.
  destruct (getFreshData_run sas getRegionNameById cacheActive ttl JSON_stringify
              profiles cacheSegment s) as (t1 & ev1 & ->).
  split; [done|]. split; [apply length_map|]. split; [|split; [|split]].
  - intros i profile Hi. unfold results.
    change (List.map ?f ?l) with (f <$> l). by rewrite list_lookup_fmap, Hi.
  - intros profile. destruct (slot_cases sas getRegionNameById profile) as [[_ H]|H]; eauto.
  - intros profile Hfailed.
    destruct (slot_cases sas getRegionNameById profile)
      as [[_ H]|(heading & details & _ & Hpop)]; [done|].
    destruct Hpop as (profileData & matchHistoryData & ladderSummaryData & names
                      & Hprofile & Hhistory & Hsummary & _ & _ & _ & _ & Hsnap).
    destruct Hfailed as [H|[H|[H|(summary' & membership & Hsummary' & Hin & Hladder)]]];
      [congruence..|].
    assert (summary' = ladderSummaryData) as -> by congruence.
    assert (is_Some (mapM (ladderResult sas profile)
              (List.map SummaryApi.ladderId
                 (SummaryApi.allLadderMemberships ladderSummaryData)))) as Hall
      by (rewrite Hsnap; eauto).
    apply mapM_is_Some_1 in Hall. rewrite Forall_forall in Hall.
    destruct (Hall (SummaryApi.ladderId membership)) as [info Hinfo].
    { apply list_elem_of_In. by apply in_map. }
    unfold ladderResult in Hinfo. simpl in Hinfo. by rewrite Hladder in Hinfo.
  - intros profile heading details H. apply assemble_populated in H.
    unfold slot. by rewrite H.
Qed.

(** The documented batch of three: the upstream client has no profile
    for the second player; its slot is the failure marker and the two
    others are payloads. *)
Lemma getFreshData_order_and_isolation_witness :
  getProfile Sample.sas Sample.bob = None
  ∧ ∃ h1 d1 h3 d3,
      (Sample.getFreshData [Sample.alice; Sample.bob; Sample.carol]
         "viewer-c1" Sample.emptyServer).1.1
      = Normal (ProfilesObject [Payload h1 d1; FailureMarker; Payload h3 d3]).
Proof.
  split; [reflexivity|].
  destruct (getFreshData_order_and_isolation Sample.sas Sample.getRegionNameById
              true 60 Sample.JSON_stringify [Sample.alice; Sample.bob; Sample.carol]
              "viewer-c1" Sample.emptyServer) as (Hvalue & _ & _ & Hcases & Hfail & _).
  unfold Sample.getFreshData. rewrite Hvalue. cbn [List.map].
  rewrite (Hfail Sample.bob (or_introl eq_refl)).
  destruct (Hcases Sample.alice) as [Ha|(h1 & d1 & -> & _)]; [by vm_compute in Ha|].
  destruct (Hcases Sample.carol) as [Hc|(h3 & d3 & -> & _)]; [by vm_compute in Hc|].
  by exists h1, d1, h3, d3.
Defined.

(** C10: [getProfileData] never rejects, so the [Promise.all] of
    [getFreshData] never rejects either; [getFreshData] always returns
    [{profiles: results}] with one result per profile, and never the
    empty array of its [catch]. *)
Theorem getFreshData_catch_unreachable (sas : UpstreamClient)
    (getRegionNameById : Z -> Completion (list string)) (cacheActive : bool)
    (ttl : Z) (JSON_stringify : FreshData -> string)
    (profiles : list PlayerObject) (cacheSegment : string) (s : Server) :
  (∀ profile index t,
     ∃ entry,
       completionOf (run (getProfileData sas getRegionNameById profile index) t)
       = Normal entry)
  ∧ (∃ results,
       completionOf
         (run (Promise_all
                 (imap (fun index profile =>
                          getProfileData sas getRegionNameById profile (Z.of_nat index))
                       profiles)) (now s)) = Normal results)
  ∧ (∃ results,
       (getFreshData sas getRegionNameById cacheActive ttl JSON_stringify
          profiles cacheSegment s).1.1 = Normal (ProfilesObject results)
       ∧ List.length results = List.length profiles)
  ∧ (getFreshData sas getRegionNameById cacheActive ttl JSON_stringify
       profiles cacheSegment s).1.1 ≠ Normal EmptyArray.
Proof.
  split; [|split; [|split]].
  - intros profile index t. eexists. apply getProfileData_fulfils.
  - eexists. apply pipelines_fulfil.
  - destruct (getFreshData_run sas getRegionNameById cacheActive ttl JSON_stringify
                profiles cacheSegment s) as (t1 & ev1 & ->).
    eexists. split; [done|]. apply length_map.
  - destruct (getFreshData_run sas getRegionNameById cacheActive ttl JSON_stringify
                profiles cacheSegment s) as (t1 & ev1 & ->). done.
Qed.

(** * The read-through cache *)

(** C4, as amended: with the cache active and, under
    [viewer-{channelId}], an entry whose text is not empty and which is
    unexpired at both of [getData]'s reads of the cache (the second
    read is issued when the first has answered, one cache round trip
    later), [getData] returns what [JSON.parse] makes of the cached
    text; its only events are the two reads, so no upstream call is
    made, and the store and the detached calls are as they were. *)
Theorem getData_cache_hit (sas : UpstreamClient)
    (getRegionNameById : Z -> Completion (list string)) (ttl redisLatency : Z)
    (Json : Type) (JSON_stringify : FreshData -> string)
    (JSON_parse : option string -> Completion Json)
    (params : GetDataParams) (s : Server) (entry : CacheEntry) :
  redis s !! cacheKey params = Some entry →
  value entry ≠ "" →
  live (now s) entry = true →
  live (now s + redisLatency) entry = true →
  getData sas getRegionNameById true ttl redisLatency Json JSON_stringify JSON_parse params s
  = (FromCache Json <$> JSON_parse (Some (value entry)),
     atTime (now s + redisLatency + redisLatency) s,
     [Cache (GET (cacheKey params)) (now s);
      Cache (GET (cacheKey params)) (now s + redisLatency)])
  ∧ issuedOnly
      (getData sas getRegionNameById true ttl redisLatency Json JSON_stringify JSON_parse
         params s).2
    = [].
Proof.
  intros Hentry Hvalue Hlive1 Hlive2.
  assert (∀ t, live t entry = true →
               redisGet (redis s) t (cacheKey params) = Some (value entry)) as Hget.
  { intros t Hlive. unfold redisGet. rewrite Hentry. simpl. by rewrite Hlive. }
  assert (truthy_str (Some (value entry)) = true) as Htruthy.
  { simpl. by destruct (String.eqb_spec (value entry) ""). }
  unfold getData, isDataCached, getCachedObject, cacheGet. fold (cacheKey params).
  rewrite (Hget _ Hlive1), Htruthy. cbn [andb atTime now redis].
  rewrite (Hget _ Hlive2). done.
Qed.

(** A hit on the sample server, where a cache round trip takes 2 ms:
    the cached text comes back decoded and no upstream call is
    issued. *)
Lemma getData_cache_hit_witness :
  (Sample.getData (Sample.batchRequest "c1" None) Sample.cachedServer).1.1
  = Normal (FromCache string "{profiles:3}")
  ∧ issuedOnly (Sample.getData (Sample.batchRequest "c1" None) Sample.cachedServer).2 = [].
Proof.
  destruct (getData_cache_hit Sample.sas Sample.getRegionNameById 60 2 string
              Sample.JSON_stringify Sample.JSON_parse
              (Sample.batchRequest "c1" None) Sample.cachedServer
              {| value := "{profiles:3}"; expiresAt := Some 60000 |})
    as [Hrun Hcalls].
  - by vm_compute.
  - discriminate.
  - by vm_compute.
  - by vm_compute.
  - unfold Sample.getData. rewrite Hrun. split; reflexivity.
Defined.

(** C4, as stated, fails in two ways.  An entry that is present and
    unexpired but holds the empty text is not served: [isDataCached]
    tests the text for truthiness, so the whole batch is fetched, with
    eleven upstream calls.  And an entry that is unexpired when
    [getData] starts can expire between the two reads of the cache:
    at 59999 ms the sample entry, due at 60000 ms, passes the first
    read, the second read at 60001 ms finds nothing, and [getData]
    returns [JSON.parse(null)] instead of the decoded text. *)
Lemma getData_live_entry_not_served :
  (redis Sample.emptyTextServer !! "viewer-c1"
   = Some {| value := ""; expiresAt := Some 60000 |}
   ∧ live (now Sample.emptyTextServer) {| value := ""; expiresAt := Some 60000 |} = true
   ∧ (∃ batch,
        (Sample.getData (Sample.batchRequest "c1" None) Sample.emptyTextServer).1.1
        = Normal (Fresh string batch))
   ∧ List.length
       (issuedOnly (Sample.getData (Sample.batchRequest "c1" None) Sample.emptyTextServer).2)
     = 11%nat)
  ∧ (redis (atTime 59999 Sample.cachedServer) !! "viewer-c1"
     = Some {| value := "{profiles:3}"; expiresAt := Some 60000 |}
     ∧ live 59999 {| value := "{profiles:3}"; expiresAt := Some 60000 |} = true
     ∧ Sample.JSON_parse (Some "{profiles:3}") = Normal "{profiles:3}"
     ∧ (Sample.getData (Sample.batchRequest "c1" None)
          (atTime 59999 Sample.cachedServer)).1.1
       = Normal (FromCache string "null")).
Proof.
  split.
  - split; [by vm_compute|]. split; [by vm_compute|]. split; [|by vm_compute].
    eexists. by vm_compute.
  - by vm_compute.
Qed.

(** C8: [getData] does not look at [refresh]: two requests that differ
    in it only give the same result, the same server state and the same
    events. *)
Theorem getData_ignores_refresh (sas : UpstreamClient)
    (getRegionNameById : Z -> Completion (list string)) (cacheActive : bool)
    (ttl redisLatency : Z) (Json : Type) (JSON_stringify : FreshData -> string)
    (JSON_parse : option string -> Completion Json)
    (channelId : string) (profiles : list PlayerObject)
    (refresh1 refresh2 : option bool) (s : Server) :
  getData sas getRegionNameById cacheActive ttl redisLatency Json JSON_stringify JSON_parse
    {| channelId := channelId; profiles := profiles; refresh := refresh1 |} s
  = getData sas getRegionNameById cacheActive ttl redisLatency Json JSON_stringify JSON_parse
      {| channelId := channelId; profiles := profiles; refresh := refresh2 |} s.
Proof. reflexivity. Qed.

Lemma expire_after_set (key text : string) (seconds t : Z)
    (store : gmap string CacheEntry) :
  redisExec (EXPIRE key seconds) t
    (<[key := {| value := text; expiresAt := None |}]> store)
  = <[key := {| value := text; expiresAt := Some (t + seconds * 1000) |}]> store.
Proof.
  unfold redisExec, redisGet. rewrite lookup_insert_eq. simpl.
  by rewrite alter_insert_eq.
Qed.

(** C5, as amended: on a miss with the cache active, [getData] runs the
    whole batch and returns it; by then it has written the encoded batch
    under [viewer-{channelId}] with no expiry, and has left the [EXPIRE]
    to a call nobody awaits.  Until that call resumes a read finds the
    entry, which has no time to live; when it resumes, at a time [t], the
    entry gets the configured time to live, counted from [t]. *)
Theorem getData_miss_writes_then_expires (sas : UpstreamClient)
    (getRegionNameById : Z -> Completion (list string)) (ttl redisLatency : Z) (Json : Type)
    (JSON_stringify : FreshData -> string)
    (JSON_parse : option string -> Completion Json)
    (params : GetDataParams) (s : Server) :
  truthy_str (redisGet (redis s) (now s) (cacheKey params)) = false →
  ∃ s' ev,
    let results := List.map (slot sas getRegionNameById) (profiles params) in
    let encoded := JSON_stringify (ProfilesObject results) in
    getData sas getRegionNameById true ttl redisLatency Json JSON_stringify JSON_parse params s
    = (Normal (Fresh Json (ProfilesObject results)), s', ev)
    ∧ redis s' = <[cacheKey params := {| value := encoded; expiresAt := None |}]> (redis s)
    ∧ detached s' = (detached s ++ [[EXPIRE (cacheKey params) ttl]])%list
    ∧ In (Cache (SET (cacheKey params) encoded) (now s')) ev
    ∧ (∀ t, redisGet (redis s') t (cacheKey params) = Some encoded)
    ∧ ∀ t,
        redis (resumeDetached (List.length (detached s)) (atTime t s'))
        = <[cacheKey params :=
              {| value := encoded; expiresAt := Some (t + ttl * 1000) |}]> (redis s)
        ∧ detached (resumeDetached (List.length (detached s)) (atTime t s'))
          = (detached s ++ [[]])%list.
Proof.
  intros Hmiss. unfold getData, isDataCached, cacheGet. fold (cacheKey params).
  rewrite Hmiss. cbn [andb].
  destruct (getFreshData_run sas getRegionNameById true ttl JSON_stringify
              (profiles params) (cacheKey params) (atTime (now s + redisLatency) s))
    as (t1 & ev1 & ->).
  eexists _, _. cbn zeta. split; [reflexivity|]. cbn [redis detached now].
  split; [done|]. split; [done|]. split.
  { apply in_or_app. right. apply in_or_app. right. by left. }
  split.
  { intros t. unfold redisGet. by rewrite lookup_insert_eq. }
  intros t. unfold resumeDetached, atTime. cbn [redis detached now].
  rewrite list_lookup_middle by done. cbn [redis detached now]. split.
  - apply expire_after_set.
  - replace (List.length (detached s)) with (List.length (detached s) + 0)%nat by lia.
    by rewrite insert_app_r.
Qed.

(** A miss on the empty sample server: the entry is written at once and
    gets its 60 s when the detached call resumes, here at 700 ms. *)
Lemma getData_miss_writes_then_expires_witness :
  truthy_str (redisGet (redis Sample.emptyServer) (now Sample.emptyServer) "viewer-c1") = false
  ∧ ∃ s',
      (Sample.getData (Sample.batchRequest "c1" None) Sample.emptyServer).1.2 = s'
      ∧ redis s' !! "viewer-c1" = Some {| value := "{profiles:3}"; expiresAt := None |}
      ∧ redis (resumeDetached 0 (atTime 700 s')) !! "viewer-c1"
        = Some {| value := "{profiles:3}"; expiresAt := Some 60700 |}.
Proof.
  split; [reflexivity|].
  destruct (getData_miss_writes_then_expires Sample.sas Sample.getRegionNameById 60 2
              string Sample.JSON_stringify Sample.JSON_parse
              (Sample.batchRequest "c1" None) Sample.emptyServer eq_refl)
    as (s' & ev & Hrun & Hredis & _ & _ & _ & Hlater).
  exists s'. unfold Sample.getData. rewrite Hrun. split; [reflexivity|].
  destruct (Hlater 700) as [Hexpired _]. simpl in Hexpired.
  rewrite Hredis, Hexpired. split; apply lookup_insert_eq.
Defined.

(** C5, as stated, fails: when [getData] has returned, the entry is in
    the cache with no time to live, the [EXPIRE] is still to be issued,
    and a request served in between is answered from that entry. *)
Lemma getData_entry_readable_before_expire :
  redis Sample.afterMiss !! "viewer-c1" = Some {| value := "{profiles:3}"; expiresAt := None |}
  ∧ detached Sample.afterMiss = [[EXPIRE "viewer-c1" 60]]
  ∧ (Sample.getData (Sample.batchRequest "c1" None) Sample.afterMiss).1.1
    = Normal (FromCache string "{profiles:3}").
Proof. by vm_compute. Qed.

(** * The persistent store *)

Lemma slice0_length {A} (l : list A) (n : Z) :
  0 <= n → slice0 l n = take (Z.to_nat n) l ∧ Z.of_nat (List.length (slice0 l n)) <= n.
Proof.
  intros Hn. unfold slice0. destruct (Z.ltb_spec n 0); [lia|].
  split; [done|]. rewrite length_take. lia.
Qed.

Lemma find_updateFirst (id : Z) (newProfiles : list PlayerObject)
    (docs : list Db.ChannelConfig) (old : Db.ChannelConfig) :
  List.find (Db.hasChannel id) docs = Some old →
  List.find (Db.hasChannel id) (Db.updateFirst id newProfiles docs)
  = Some {| Db.channelId := id; Db.profiles := newProfiles |}.
Proof.
  induction docs as [|doc docs IH]; simpl; [done|].
  destruct (Db.hasChannel id doc) eqn:Hdoc; simpl.
  - intros _. unfold Db.hasChannel in *. simpl. rewrite Hdoc.
    apply Z.eqb_eq in Hdoc. by rewrite Hdoc.
  - rewrite Hdoc. apply IH.
Qed.

Lemma find_inserted (id : Z) (newProfiles : list PlayerObject)
    (docs : list Db.ChannelConfig) :
  List.find (Db.hasChannel id) docs = None →
  List.find (Db.hasChannel id)
    (docs ++ [{| Db.channelId := id; Db.profiles := newProfiles |}])%list
  = Some {| Db.channelId := id; Db.profiles := newProfiles |}.
Proof.
  induction docs as [|doc docs IH]; simpl.
  - intros _. unfold Db.hasChannel; simpl. by rewrite Z.eqb_refl.
  - destruct (Db.hasChannel id doc); [done|apply IH].
Qed.

(** C9: [save] stores the first [maxPlayerProfileCount] profiles and
    returns [true] when the store accepted the update, [false] when it
    failed; [get] returns status 200 with the channel and its profiles
    when a configuration exists, status 404 when none does, and status
    400 when the store fails; neither lets the store's error out. *)
Theorem db_save_get_contract (maxPlayerProfileCount : Z)
    (validators : list PlayerObject -> bool) (config : Db.ConfigObject.t)
    (db : Db.Mongo) (channelId : Z) :
  0 <= maxPlayerProfileCount →
  let stored := slice0 (Db.ConfigObject.data config) maxPlayerProfileCount in
  stored = take (Z.to_nat maxPlayerProfileCount) (Db.ConfigObject.data config)
  ∧ Z.of_nat (List.length stored) <= maxPlayerProfileCount
  ∧ (Db.save maxPlayerProfileCount validators config db).1
    = Db.connected db && validators stored
  ∧ (Db.connected db && validators stored = true →
     Db.get (Db.ConfigObject.channelId config)
       (Db.save maxPlayerProfileCount validators config db).2
     = Db.Found 200 (Db.ConfigObject.channelId config) stored)
  ∧ (Db.connected db && validators stored = false →
     (Db.save maxPlayerProfileCount validators config db).2 = db)
  ∧ (Db.connected db = true →
     Db.get channelId db =
       match List.find (Db.hasChannel channelId) (Db.documents db) with
       | Some doc => Db.Found 200 channelId (Db.profiles doc)
       | None => Db.WithMessage 404 "No config found"
       end)
  ∧ (Db.connected db = false → Db.get channelId db = Db.StatusOnly 400).
Proof.
  intros Hmax stored. destruct (slice0_length (Db.ConfigObject.data config) _ Hmax) as [Htake Hlen].
  split; [done|]. split; [done|].
  unfold Db.save, Db.findOneAndUpdate. fold stored.
  destruct (Db.connected db) eqn:Hconn; cbn [negb andb].
  - destruct (validators stored) eqn:Hvalid; cbn [negb].
    + split; [|split; [|split; [done|split; [|done]]]].
      * by destruct (List.find _ _).
      * intros _. unfold Db.get, Db.findOne.
        destruct (List.find _ (Db.documents db)) as [old|] eqn:Hfind;
          cbn [snd Db.connected Db.documents].
        -- by rewrite (find_updateFirst _ _ _ _ Hfind).
        -- by rewrite (find_inserted _ _ _ Hfind).
      * intros _. unfold Db.get, Db.findOne. rewrite Hconn.
        destruct (List.find _ _) as [doc|] eqn:Hfind; [|done].
        apply find_some in Hfind as [_ Hid]. apply Z.eqb_eq in Hid. by rewrite Hid.
    + split; [done|]. split; [done|]. split; [done|]. split; [|done].
      intros _. unfold Db.get, Db.findOne. rewrite Hconn.
      destruct (List.find _ _) as [doc|] eqn:Hfind; [|done].
      apply find_some in Hfind as [_ Hid]. apply Z.eqb_eq in Hid. by rewrite Hid.
  - split; [done|]. split; [done|]. split; [done|]. split; [done|].
    intros _. unfold Db.get, Db.findOne. by rewrite Hconn.
Qed.

(** Saving three profiles with a maximum of two, then reading back. *)
Lemma db_save_get_contract_witness :
  0 <= 2
  ∧ (Db.save 2 (fun _ => true) Sample.sampleConfig Sample.sampleMongo).1 = true
  ∧ Db.get 9 (Db.save 2 (fun _ => true) Sample.sampleConfig Sample.sampleMongo).2
    = Db.Found 200 9 [Sample.alice; Sample.bob]
  ∧ Db.get 8 Sample.sampleMongo = Db.WithMessage 404 "No config found".
Proof.
  split; [lia|].
  destruct (db_save_get_contract 2 (fun _ => true) Sample.sampleConfig Sample.sampleMongo 8
              ltac:(lia)) as (_ & _ & Hsave & Hget & _ & Hfind & _).
  split; [exact Hsave|]. split; [exact (Hget eq_refl)|exact (Hfind eq_refl)].
Defined.

(** * Further properties: ladder results *)

Lemma head_filter_Some {A} (p : A → bool) (l : list A) (x : A) :
  head (List.filter p l) = Some x ↔
  ∃ before after,
    l = (before ++ x :: after)%list ∧ p x = true ∧ Forall (fun y => p y = false) before.
Proof.
  split.
  - induction l as [|y l IH]; simpl; [done|].
    destruct (p y) eqn:Hy; simpl.
    + intros [= ->]. exists [], l. by repeat split.
    + intros H. destruct (IH H) as (before & after & -> & Hx & Hbefore).
      exists (y :: before), after. repeat split; [done|]. by constructor.
  - intros (before & after & -> & Hx & Hbefore).
    induction Hbefore as [|y before Hy _ IH]; simpl.
    + by rewrite Hx.
    + by rewrite Hy.
Qed.

Lemma head_filter_None {A} (p : A → bool) (l : list A) :
  head (List.filter p l) = None ↔ Forall (fun y => p y = false) l.
Proof.
  induction l as [|y l IH]; simpl; [by split; [constructor|]|].
  destruct (p y) eqn:Hy; simpl.
  - split; [done|]. intros H. inversion H; congruence.
  - rewrite IH. split; [by constructor|]. by inversion 1.
Qed.

Lemma inTeam_has_member (profileId : Z) (ladderTeam : LadderApi.LadderTeam) :
  inTeam profileId ladderTeam = true →
  ∃ me, head (List.filter (isMember profileId) (LadderApi.teamMembers ladderTeam)) = Some me.
Proof.
  unfold inTeam. induction (LadderApi.teamMembers ladderTeam) as [|m l IH]; simpl; [done|].
  destruct (isMember profileId m); simpl; eauto.
Qed.

Lemma modeWords_cons (apiData : LadderApi.t) :
  ∃ word0 rest, modeWords apiData = word0 :: rest.
Proof.
  unfold modeWords, split.
  generalize (LadderApi.localizedGameMode (LadderApi.currentLadderMembership apiData)).
  generalize EmptyString. intros cur s. revert cur.
  induction s as [|c s IH]; intros cur; simpl; [eauto|].
  destruct (Ascii.eqb c " "); eauto.
Qed.

(** The last two steps of [getPlayerLadderInfo]: pick the team, then the
    member. *)
Lemma pick_team_and_member {A} (profileId : Z) (teams : list LadderApi.LadderTeam)
    (k : LadderApi.LadderTeam → LadderApi.TeamMember → A) :
  (Forall (fun ladderTeam => inTeam profileId ladderTeam = false) teams
   ∧ (defined (head (List.filter (inTeam profileId) teams)) ≫= fun playerLadderData =>
      defined (head (List.filter (isMember profileId)
                       (LadderApi.teamMembers playerLadderData))) ≫= fun me =>
      mret (k playerLadderData me)) = Throw TypeError)
  ∨ ∃ before playerLadderData after me,
      teams = (before ++ playerLadderData :: after)%list
      ∧ Forall (fun ladderTeam => inTeam profileId ladderTeam = false) before
      ∧ inTeam profileId playerLadderData = true
      ∧ head (List.filter (isMember profileId) (LadderApi.teamMembers playerLadderData))
        = Some me
      ∧ (defined (head (List.filter (inTeam profileId) teams)) ≫= fun playerLadderData =>
         defined (head (List.filter (isMember profileId)
                          (LadderApi.teamMembers playerLadderData))) ≫= fun me =>
         mret (k playerLadderData me)) = Normal (k playerLadderData me).
Proof.
  destruct (head (List.filter (inTeam profileId) teams)) as [team|] eqn:Hteam.
  - right. apply head_filter_Some in Hteam as (before & after & -> & Hin & Hbefore).
    destruct (inTeam_has_member _ _ Hin) as [me Hme].
    exists before, team, after, me. repeat split; [done..|].
    simpl. by rewrite Hme.
  - left. split; [by apply head_filter_None|done].
Qed.

Lemma not_all_outside (profileId : Z) (before after : list LadderApi.LadderTeam)
    (team : LadderApi.LadderTeam) :
  inTeam profileId team = true →
  ¬ Forall (fun ladderTeam => inTeam profileId ladderTeam = false)
      (before ++ team :: after)%list.
Proof.
  intros Hin Hall. apply Forall_app in Hall as [_ Hall]. inversion Hall; congruence.
Qed.

Lemma getPlayerLadderInfo_failure (apiData : LadderApi.t) (profileId : Z) :
  (∀ e, getPlayerLadderInfo apiData profileId = Throw e → e = TypeError)
  ∧ (getPlayerLadderInfo apiData profileId = Throw TypeError ↔
     LadderApi.ranksAndPools apiData = []
     ∨ noRankWord (modeWords apiData)
     ∨ Forall (fun ladderTeam => inTeam profileId ladderTeam = false)
         (LadderApi.ladderTeams apiData)).
Proof.
  unfold getPlayerLadderInfo, noRankWord. fold (modeWords apiData).
  fold (inTeam profileId).
  destruct (modeWords_cons apiData) as (word0 & rest & ->).
  cbn [lookup list_lookup].
  destruct (LadderApi.ranksAndPools apiData) as [|rankAndPool pools];
    cbn [head defined mbind completion_bind].
  { split; [by intros e [= <-]|]. split; auto. }
  destruct rest as [|word1 rest]; cbn [lookup list_lookup defined mbind completion_bind].
  { split; [by intros e [= <-]|]. split; auto. }
  destruct (String.eqb_spec (toLowerCase word1) "random") as [Hrandom|Hrandom].
  - destruct rest as [|word2 rest];
      cbn [lookup list_lookup defined mbind completion_bind fmap completion_fmap].
    { split; [by intros e [= <-]|]. split; [|done]. intros _. right; left. right. eauto. }
    destruct (pick_team_and_member profileId (LadderApi.ladderTeams apiData)
                    (fun playerLadderData me => {|
                       LadderInfo.mode := toLowerCase word0;
                       LadderInfo.rank := toLowerCase word2;
                       LadderInfo.wins := LadderApi.wins playerLadderData;
                       LadderInfo.losses := LadderApi.losses playerLadderData;
                       LadderInfo.race := LadderApi.favoriteRace me;
                       LadderInfo.mmr := LadderApi.mmr rankAndPool;
                       LadderInfo.divisionRank := LadderApi.rank rankAndPool;
                       LadderInfo.teamMembers :=
                         List.map LadderApi.displayName
                           (LadderApi.teamMembers playerLadderData) |}))
          as [[Hnone Hthrow]|(before & team & after & me & Hteams & _ & Hin & _ & Hok)].
    + cbn beta in Hthrow. rewrite Hthrow.
      split; [by intros e [= <-]|]. split; auto.
    + cbn beta in Hok. rewrite Hok.
      split; [done|]. split; [done|]. intros [H|[[H|(w & [= <-] & _ & H)]|H]]; try done.
      rewrite Hteams in H. by apply not_all_outside in H.
  - change (mret (toLowerCase word1) ≫= ?f) with (f (toLowerCase word1)). cbn beta.
    destruct (pick_team_and_member profileId (LadderApi.ladderTeams apiData)
                    (fun playerLadderData me => {|
                       LadderInfo.mode := toLowerCase word0;
                       LadderInfo.rank := toLowerCase word1;
                       LadderInfo.wins := LadderApi.wins playerLadderData;
                       LadderInfo.losses := LadderApi.losses playerLadderData;
                       LadderInfo.race := LadderApi.favoriteRace me;
                       LadderInfo.mmr := LadderApi.mmr rankAndPool;
                       LadderInfo.divisionRank := LadderApi.rank rankAndPool;
                       LadderInfo.teamMembers :=
                         List.map LadderApi.displayName
                           (LadderApi.teamMembers playerLadderData) |}))
          as [[Hnone Hthrow]|(before & team & after & me & Hteams & _ & Hin & _ & Hok)].
    + cbn beta in Hthrow. rewrite Hthrow.
      split; [by intros e [= <-]|]. split; auto.
    + cbn beta in Hok. rewrite Hok.
      split; [done|]. split; [done|].
      intros [H|[[H|(w & [= <-] & Hw & _)]|H]]; try done.
      rewrite Hteams in H. by apply not_all_outside in H.
Qed.

Lemma getPlayerLadderInfo_success (apiData : LadderApi.t) (profileId : Z)
    (info : LadderInfo.t) :
  getPlayerLadderInfo apiData profileId = Normal info →
  ∃ before team after membersBefore me membersAfter rankAndPool pools,
    LadderApi.ladderTeams apiData = (before ++ team :: after)%list
    ∧ Forall (fun ladderTeam => inTeam profileId ladderTeam = false) before
    ∧ LadderApi.teamMembers team = (membersBefore ++ me :: membersAfter)%list
    ∧ LadderApi.id me = profileId
    ∧ Forall (fun member => LadderApi.id member ≠ profileId) membersBefore
    ∧ LadderApi.ranksAndPools apiData = rankAndPool :: pools
    ∧ toLowerCase <$> head (modeWords apiData) = Some (LadderInfo.mode info)
    ∧ rankNameOf (modeWords apiData) = Some (LadderInfo.rank info)
    ∧ LadderInfo.wins info = LadderApi.wins team
    ∧ LadderInfo.losses info = LadderApi.losses team
    ∧ LadderInfo.race info = LadderApi.favoriteRace me
    ∧ LadderInfo.mmr info = LadderApi.mmr rankAndPool
    ∧ LadderInfo.divisionRank info = LadderApi.rank rankAndPool
    ∧ LadderInfo.teamMembers info
      = List.map LadderApi.displayName (LadderApi.teamMembers team).
Proof.
  unfold getPlayerLadderInfo, rankNameOf. fold (modeWords apiData).
  fold (inTeam profileId).
  destruct (modeWords_cons apiData) as (word0 & rest & ->).
  cbn [lookup list_lookup head].
  destruct (LadderApi.ranksAndPools apiData) as [|rankAndPool pools];
    cbn [head defined mbind completion_bind option_bind]; [done|].
  destruct rest as [|word1 rest];
    cbn [lookup list_lookup defined mbind completion_bind option_bind]; [done|].
  assert (∀ (rankName : string) (k := fun playerLadderData me => {|
            LadderInfo.mode := toLowerCase word0;
            LadderInfo.rank := rankName;
            LadderInfo.wins := LadderApi.wins playerLadderData;
            LadderInfo.losses := LadderApi.losses playerLadderData;
            LadderInfo.race := LadderApi.favoriteRace me;
            LadderInfo.mmr := LadderApi.mmr rankAndPool;
            LadderInfo.divisionRank := LadderApi.rank rankAndPool;
            LadderInfo.teamMembers :=
              List.map LadderApi.displayName (LadderApi.teamMembers playerLadderData) |}),
    (defined (head (List.filter (inTeam profileId) (LadderApi.ladderTeams apiData)))
     ≫= fun playerLadderData =>
     defined (head (List.filter (isMember profileId)
                      (LadderApi.teamMembers playerLadderData))) ≫= fun me =>
     mret (k playerLadderData me)) = Normal info →
    ∃ before team after membersBefore me membersAfter,
      LadderApi.ladderTeams apiData = (before ++ team :: after)%list
      ∧ Forall (fun ladderTeam => inTeam profileId ladderTeam = false) before
      ∧ LadderApi.teamMembers team = (membersBefore ++ me :: membersAfter)%list
      ∧ LadderApi.id me = profileId
      ∧ Forall (fun member => LadderApi.id member ≠ profileId) membersBefore
      ∧ info = k team me) as Hpick.
  { intros rankName k Hinfo.
    destruct (pick_team_and_member profileId (LadderApi.ladderTeams apiData) k)
      as [[_ Hthrow]|(before & team & after & me & Hteams & Hbefore & _ & Hme & Hok)];
      [congruence|].
    apply head_filter_Some in Hme as (membersBefore & membersAfter & Hmembers & Hid & Hfirst).
    exists before, team, after, membersBefore, me, membersAfter.
    repeat split; [done..| | |congruence].
    - unfold isMember in Hid. by apply Z.eqb_eq in Hid.
    - eapply Forall_impl; [exact Hfirst|]. intros member Hmember.
      unfold isMember in Hmember. by apply Z.eqb_neq in Hmember. }
  destruct (String.eqb (toLowerCase word1) "random").
  - destruct rest as [|word2 rest];
      cbn [lookup list_lookup defined mbind completion_bind fmap completion_fmap
           option_fmap option_map]; [done|].
    intros Hinfo. apply Hpick in Hinfo
      as (before & team & after & membersBefore & me & membersAfter & H1 & H2 & H3 & H4 & H5 & ->).
    exists before, team, after, membersBefore, me, membersAfter, rankAndPool, pools.
    by repeat split.
  - change (mret (toLowerCase word1) ≫= ?f) with (f (toLowerCase word1)). cbn beta.
    intros Hinfo. apply Hpick in Hinfo
      as (before & team & after & membersBefore & me & membersAfter & H1 & H2 & H3 & H4 & H5 & ->).
    exists before, team, after, membersBefore, me, membersAfter, rankAndPool, pools.
    by repeat split.
Qed.

(** [getPlayerLadderInfo] throws -- a [TypeError], nothing else -- exactly
    when the ladder has no rank-and-pool entry, when its game mode has
    no rank word, or when no team of the ladder lists the profile. *)
Theorem getPlayerLadderInfo_throws_iff (apiData : LadderApi.t) (profileId : Z) :
  (∀ e, getPlayerLadderInfo apiData profileId = Throw e → e = TypeError)
  ∧ (getPlayerLadderInfo apiData profileId = Throw TypeError ↔
     LadderApi.ranksAndPools apiData = []
     ∨ noRankWord (modeWords apiData)
     ∨ Forall (fun ladderTeam => inTeam profileId ladderTeam = false)
         (LadderApi.ladderTeams apiData)).
Proof. apply getPlayerLadderInfo_failure. Qed.

(** On success the result is read off the first team that lists the
    profile and, in it, off the first member with the profile's id; the
    rank is the one the words of the game mode name. *)
Theorem getPlayerLadderInfo_first_match (apiData : LadderApi.t) (profileId : Z)
    (info : LadderInfo.t) :
  getPlayerLadderInfo apiData profileId = Normal info →
  ∃ before team after membersBefore me membersAfter rankAndPool pools,
    LadderApi.ladderTeams apiData = (before ++ team :: after)%list
    ∧ Forall (fun ladderTeam => inTeam profileId ladderTeam = false) before
    ∧ LadderApi.teamMembers team = (membersBefore ++ me :: membersAfter)%list
    ∧ LadderApi.id me = profileId
    ∧ Forall (fun member => LadderApi.id member ≠ profileId) membersBefore
    ∧ LadderApi.ranksAndPools apiData = rankAndPool :: pools
    ∧ toLowerCase <$> head (modeWords apiData) = Some (LadderInfo.mode info)
    ∧ rankNameOf (modeWords apiData) = Some (LadderInfo.rank info)
    ∧ LadderInfo.wins info = LadderApi.wins team
    ∧ LadderInfo.losses info = LadderApi.losses team
    ∧ LadderInfo.race info = LadderApi.favoriteRace me
    ∧ LadderInfo.mmr info = LadderApi.mmr rankAndPool
    ∧ LadderInfo.divisionRank info = LadderApi.rank rankAndPool
    ∧ LadderInfo.teamMembers info
      = List.map LadderApi.displayName (LadderApi.teamMembers team).
Proof. apply getPlayerLadderInfo_success. Qed.

(** A ladder with three teams, the first without the profile, the
    second with the profile as its second and its third member, the
    third with the profile again: the result is read off the second
    team and off its second member. *)
Lemma getPlayerLadderInfo_first_match_witness :
  ∃ info,
    getPlayerLadderInfo Sample.crowdedLadder 101 = Normal info
    ∧ LadderInfo.wins info = LadderApi.wins Sample.aliceTeam
    ∧ LadderInfo.losses info = LadderApi.losses Sample.aliceTeam
    ∧ LadderInfo.race info = "zerg"
    ∧ LadderInfo.teamMembers info = ["Carol"; "Alice"; "Alias"]
    ∧ LadderInfo.mmr info = of_Z 4100
    ∧ LadderInfo.mode info = "2v2"
    ∧ LadderInfo.rank info = "master".
Proof.
  destruct (getPlayerLadderInfo Sample.crowdedLadder 101) as [info|e] eqn:Hinfo;
    [|by vm_compute in Hinfo].
  destruct (getPlayerLadderInfo_first_match _ _ _ Hinfo)
    as (before & team & after & membersBefore & me & membersAfter & rankAndPool & pools
        & Hteams & Hbefore & Hmembers & Hid & HmembersBefore & Hpools & Hmode & Hrank
        & Hwins & Hlosses & Hrace & Hmmr & _ & Hnames).
  exists info. split; [done|].
  assert (team = Sample.aliceTeam) as ->.
  { unfold Sample.crowdedLadder in Hteams. cbn [LadderApi.ladderTeams] in Hteams.
    destruct before as [|team0 [|team1 before]]; cbn [app] in Hteams;
      injection Hteams as <- Hteams.
    - exfalso. unfold Sample.rivalTeam in Hmembers.
      cbn [LadderApi.teamMembers] in Hmembers.
      destruct membersBefore as [|m0 [|m1 [|m2 l]]]; cbn [app] in Hmembers;
        simplify_eq; by vm_compute in Hid.
    - done.
    - subst team1.
      apply Forall_cons in Hbefore as [_ Hbefore].
      apply Forall_cons in Hbefore as [Hbefore _]. by vm_compute in Hbefore. }
  assert (me = Sample.member 101 "Alice" "zerg") as ->.
  { unfold Sample.aliceTeam in Hmembers. cbn [LadderApi.teamMembers] in Hmembers.
    destruct membersBefore as [|m0 [|m1 [|m2 l]]]; cbn [app] in Hmembers.
    - injection Hmembers as <- _. by vm_compute in Hid.
    - by injection Hmembers as _ <- _.
    - injection Hmembers as <- <- _.
      apply Forall_cons in HmembersBefore as [_ HmembersBefore].
      by apply Forall_cons in HmembersBefore as [HmembersBefore _].
    - injection Hmembers as _ _ _ Hnil. by destruct l. }
  injection Hpools as <- _.
  split; [done|]. split; [done|]. split; [done|]. split; [done|]. split; [done|].
  split.
  - change (Some "2v2" = Some (LadderInfo.mode info)) in Hmode.
    by injection Hmode as <-.
  - change (Some "master" = Some (LadderInfo.rank info)) in Hrank.
    by injection Hrank as <-.
Defined.

Lemma append_cons (x : ascii) (a b : string) : String x a +:+ b = String x (a +:+ b).
Proof. reflexivity. Qed.

Lemma append_empty_r (a : string) : a +:+ "" = a.
Proof. induction a as [|x a IH]; [done|]. by rewrite append_cons, IH. Qed.

Lemma append_assoc (a b c : string) : (a +:+ b) +:+ c = a +:+ (b +:+ c).
Proof. induction a as [|x a IH]; [done|]. by rewrite !append_cons, IH. Qed.

Lemma rev_app_append (s t : string) : String.rev_app s t = String.rev_app s "" +:+ t.
Proof.
  revert t. induction s as [|x s IH]; intros t; simpl; [done|].
  rewrite (IH (String x t)), (IH (String x "")). by rewrite append_assoc.
Qed.

Lemma rev_snoc (cur : string) (x : ascii) :
  String.rev (String x cur) = String.rev cur +:+ String x "".
Proof. unfold String.rev. simpl. apply rev_app_append. Qed.

Lemma split_from_word (a cur : string) :
  noSpace a = true → split_from " " cur a = [String.rev cur +:+ a].
Proof.
  revert cur. induction a as [|x a IH]; intros cur; simpl.
  - by rewrite append_empty_r.
  - intros [Hx Ha]%andb_true_iff. destruct (Ascii.eqb x " "); [done|].
    by rewrite (IH _ Ha), rev_snoc, append_assoc.
Qed.

Lemma split_from_word_space (a b cur : string) :
  noSpace a = true →
  split_from " " cur (a +:+ String " " b)
  = (String.rev cur +:+ a) :: split_from " " EmptyString b.
Proof.
  revert cur. induction a as [|x a IH]; intros cur.
  - intros _. change ("" +:+ String " " b) with (String " " b). simpl.
    by rewrite append_empty_r.
  - rewrite append_cons. simpl.
    intros [Hx Ha]%andb_true_iff. destruct (Ascii.eqb x " "); [done|].
    by rewrite (IH _ Ha), rev_snoc, append_assoc.
Qed.

(** The words of "w0", of "w0 w1" and of "w0 w1 w2". *)
Lemma split_words_1 (w0 : string) : noSpace w0 = true → split " " w0 = [w0].
Proof. intros H. unfold split. by rewrite split_from_word. Qed.

Lemma split_words_2 (w0 w1 : string) :
  noSpace w0 = true → noSpace w1 = true → split " " (w0 +:+ " " +:+ w1) = [w0; w1].
Proof.
  intros H0 H1. unfold split.
  change (w0 +:+ " " +:+ w1) with (w0 +:+ String " " w1).
  by rewrite split_from_word_space, split_from_word.
Qed.

Lemma split_words_3 (w0 w1 w2 : string) :
  noSpace w0 = true → noSpace w1 = true → noSpace w2 = true →
  split " " (w0 +:+ " " +:+ w1 +:+ " " +:+ w2) = [w0; w1; w2].
Proof.
  intros H0 H1 H2. unfold split.
  change (w0 +:+ " " +:+ w1 +:+ " " +:+ w2) with (w0 +:+ String " " (w1 +:+ String " " w2)).
  by rewrite !split_from_word_space, split_from_word.
Qed.

(** The rank read from the game mode.  A game mode of one word, or
    "<mode> random", makes [getPlayerLadderInfo] throw; "<mode> <rank>"
    gives the lower-cased rank; "<mode> <word> <rank>" gives the third
    word when the second is "random" in any letter case, and the second
    otherwise. *)
Theorem getPlayerLadderInfo_game_mode_words (apiData : LadderApi.t) (profileId : Z)
    (w0 w1 w2 : string) :
  noSpace w0 = true → noSpace w1 = true → noSpace w2 = true →
  getPlayerLadderInfo (withGameMode w0 apiData) profileId = Throw TypeError
  ∧ (toLowerCase w1 = "random" →
     getPlayerLadderInfo (withGameMode (w0 +:+ " " +:+ w1) apiData) profileId
     = Throw TypeError)
  ∧ (∀ info,
       getPlayerLadderInfo (withGameMode (w0 +:+ " " +:+ w1) apiData) profileId
       = Normal info →
       LadderInfo.mode info = toLowerCase w0 ∧ LadderInfo.rank info = toLowerCase w1)
  ∧ (∀ info,
       getPlayerLadderInfo
         (withGameMode (w0 +:+ " " +:+ w1 +:+ " " +:+ w2) apiData) profileId
       = Normal info →
       LadderInfo.mode info = toLowerCase w0
       ∧ LadderInfo.rank info =
         if String.eqb (toLowerCase w1) "random" then toLowerCase w2 else toLowerCase w1).
Proof.
  intros H0 H1 H2.
  assert (∀ text, modeWords (withGameMode text apiData) = split " " text) as Hwords by done.
  split; [|split; [|split]].
  - apply getPlayerLadderInfo_failure. right; left. left.
    by rewrite Hwords, split_words_1.
  - intros Hrandom. apply getPlayerLadderInfo_failure. right; left. right.
    exists w1. by rewrite Hwords, split_words_2.
  - intros info Hinfo. apply getPlayerLadderInfo_success in Hinfo
      as (_ & _ & _ & _ & _ & _ & _ & _ & _ & _ & _ & _ & _ & _ & Hmode & Hrank & _).
    rewrite Hwords, split_words_2 in Hmode, Hrank by done.
    unfold rankNameOf in Hrank. simpl in Hmode, Hrank.
    destruct (String.eqb (toLowerCase w1) "random"); simplify_eq; done.
  - intros info Hinfo. apply getPlayerLadderInfo_success in Hinfo
      as (_ & _ & _ & _ & _ & _ & _ & _ & _ & _ & _ & _ & _ & _ & Hmode & Hrank & _).
    rewrite Hwords, split_words_3 in Hmode, Hrank by done.
    unfold rankNameOf in Hrank. simpl in Hmode, Hrank.
    destruct (String.eqb (toLowerCase w1) "random"); simplify_eq; done.
Qed.

(** A team ladder in a random team: "2v2 Random Platinum". *)
Lemma getPlayerLadderInfo_game_mode_words_witness :
  noSpace "2v2" = true ∧ noSpace "Random" = true ∧ noSpace "Platinum" = true
  ∧ ∃ info,
      getPlayerLadderInfo
        (withGameMode "2v2 Random Platinum" (Sample.ladderOf Sample.alice)) 101
      = Normal info
      ∧ LadderInfo.mode info = "2v2" ∧ LadderInfo.rank info = "platinum".
Proof.
  split; [reflexivity|]. split; [reflexivity|]. split; [reflexivity|].
  destruct (getPlayerLadderInfo_game_mode_words (Sample.ladderOf Sample.alice) 101
              "2v2" "Random" "Platinum" eq_refl eq_refl eq_refl) as (_ & _ & _ & Hthree).
  destruct (getPlayerLadderInfo
              (withGameMode "2v2 Random Platinum" (Sample.ladderOf Sample.alice)) 101)
    as [info|e] eqn:Hinfo; [|by vm_compute in Hinfo].
  exists info. split; [done|]. exact (Hthree info Hinfo).
Defined.

(** * Further properties: labels and statistics *)

Lemma lower_ascii_idempotent (c : ascii) : lower_ascii (lower_ascii c) = lower_ascii c.
Proof. by destruct c as [[] [] [] [] [] [] [] []]. Qed.

Lemma toLowerCase_idempotent (s : string) : toLowerCase (toLowerCase s) = toLowerCase s.
Proof.
  induction s as [|c s IH]; simpl; [done|]. by rewrite lower_ascii_idempotent, IH.
Qed.

Lemma toLowerCase_empty (s : string) : String.eqb (toLowerCase s) "" = String.eqb s "".
Proof. by destruct s. Qed.

Lemma truthy_str_lower (label : option string) :
  truthy_str (toLowerCase <$> label) = truthy_str label.
Proof. destruct label as [s|]; simpl; [|done]. by rewrite toLowerCase_empty. Qed.

Lemma rankIndex_lower (label : option string) :
  rankIndex (toLowerCase <$> label) = rankIndex label.
Proof.
  destruct label as [s|]; [|done].
  unfold rankIndex, truthy_str. cbn [fmap option_fmap option_map].
  by rewrite toLowerCase_empty, toLowerCase_idempotent.
Qed.

Lemma loweredLabel_lower (label : option string) :
  loweredLabel (toLowerCase <$> label) = loweredLabel label
  ∧ toLowerCase (loweredLabel label) = loweredLabel label.
Proof.
  destruct label as [s|]; [|done]. unfold loweredLabel.
  cbn [fmap option_fmap option_map default from_option id].
  by rewrite toLowerCase_idempotent.
Qed.

(** [calculateHighestRank] does not depend on the letter case of its
    labels, and its result is in lower case. *)
Theorem calculateHighestRank_case_insensitive (soloRank teamRank : option string) :
  calculateHighestRank (toLowerCase <$> soloRank) (toLowerCase <$> teamRank)
  = calculateHighestRank soloRank teamRank
  ∧ toLowerCase (calculateHighestRank soloRank teamRank)
    = calculateHighestRank soloRank teamRank.
Proof.
  unfold calculateHighestRank. rewrite !lowerOrEmpty_loweredLabel, !rankIndex_lower.
  destruct (loweredLabel_lower soloRank) as [-> Hsolo].
  destruct (loweredLabel_lower teamRank) as [-> Hteam].
  split; [done|]. by destruct (rankIndex soloRank >? rankIndex teamRank).
Qed.

Lemma finishRank_lower (career : option ProfileApi.Career)
    (which : ProfileApi.Career → option ProfileApi.Finish) :
  toLowerCase (finishRank career which) = finishRank career which.
Proof.
  unfold finishRank.
  destruct career as [c|]; simpl; [|done].
  destruct (which c) as [finish|]; simpl; [|done].
  destruct (ProfileApi.leagueName finish) as [leagueName|]; simpl; [|done].
  destruct (negb _); [|done]. apply toLowerCase_idempotent.
Qed.

Lemma or_num_not_NaN (a : option JsNum) (z : Z) : or_num a (of_Z z) ≠ NaN.
Proof.
  unfold or_num. destruct a as [[q| | |]|]; simpl; try done.
  by destruct (negb (is_zero q)).
Qed.

Lemma getStats_spec (apiData : ProfileApi.t) :
  (∀ e, getStats apiData = Throw e → e = TypeError)
  ∧ (getStats apiData = Throw TypeError ↔
     ProfileApi.snapshot apiData = None
     ∨ ∃ s, ProfileApi.snapshot apiData = Some s ∧ ProfileApi.seasonSnapshot s = [])
  ∧ (∀ st, getStats apiData = Normal st →
       Stats.seasonWinRatio st ≠ NaN
       ∧ Stats.totalCareerGames st ≠ NaN
       ∧ toLowerCase (Stats.highestSoloRank st) = Stats.highestSoloRank st
       ∧ toLowerCase (Stats.highestTeamRank st) = Stats.highestTeamRank st
       ∧ (ProfileApi.career apiData = None →
          Stats.totalCareerGames st = of_Z 0
          ∧ Stats.highestSoloRank st = "" ∧ Stats.highestTeamRank st = "")).
Proof.
  unfold getStats, calculateSeasonWinRatio, calculateWins, reduce_add.
  destruct (ProfileApi.snapshot apiData) as [s|];
    cbn [defined mbind completion_bind mret completion_ret].
  - destruct (ProfileApi.seasonSnapshot s) as [|gameMode modes] eqn:Hmodes;
      cbn [List.map defined mbind completion_bind mret completion_ret].
    + split; [by intros e [= <-]|]. split; [|done]. split; [|done]. intros _. right. eauto.
    + split; [done|]. split.
      * split; [done|]. intros [H|(s' & [= <-] & H)]; [done|]. congruence.
      * intros st Hst. injection Hst as <-.
        split; [exact (or_num_not_NaN (Some _) 0)|].
        split; [exact (or_num_not_NaN _ 0)|].
        split; [exact (finishRank_lower _ _)|]. split; [exact (finishRank_lower _ _)|].
        cbn [Stats.totalCareerGames Stats.highestSoloRank Stats.highestTeamRank].
        by intros ->.
  - split; [by intros e [= <-]|]. split; [|done]. split; auto.
Qed.

(** [getStats] throws -- a [TypeError] -- exactly when the profile has
    no snapshot or its season snapshot has no game mode; a missing
    career never makes it throw.  When it returns, the two numbers it
    defaults are never NaN, the two rank names are in lower case, and
    without a career they are 0 and the empty string. *)
Theorem getStats_errors_and_defaults (apiData : ProfileApi.t) :
  (∀ e, getStats apiData = Throw e → e = TypeError)
  ∧ (getStats apiData = Throw TypeError ↔
     ProfileApi.snapshot apiData = None
     ∨ ∃ s, ProfileApi.snapshot apiData = Some s ∧ ProfileApi.seasonSnapshot s = [])
  ∧ (∀ st, getStats apiData = Normal st →
       Stats.seasonWinRatio st ≠ NaN
       ∧ Stats.totalCareerGames st ≠ NaN
       ∧ toLowerCase (Stats.highestSoloRank st) = Stats.highestSoloRank st
       ∧ toLowerCase (Stats.highestTeamRank st) = Stats.highestTeamRank st
       ∧ (ProfileApi.career apiData = None →
          Stats.totalCareerGames st = of_Z 0
          ∧ Stats.highestSoloRank st = "" ∧ Stats.highestTeamRank st = "")).
Proof. apply getStats_spec. Qed.

(** A profile with everything in place: its statistics. *)
Lemma getStats_errors_and_defaults_witness :
  ∃ st, getStats (Sample.profileOf (Some (of_Z 10))) = Normal st
        ∧ Stats.seasonWinRatio st ≠ NaN
        ∧ toLowerCase (Stats.highestSoloRank st) = Stats.highestSoloRank st.
Proof.
  destruct (getStats (Sample.profileOf (Some (of_Z 10)))) as [st|e] eqn:Hst;
    [|by vm_compute in Hst].
  destruct (getStats_errors_and_defaults (Sample.profileOf (Some (of_Z 10))))
    as (_ & _ & Hok).
  destruct (Hok st Hst) as (Hratio & _ & Hsolo & _). by exists st.
Defined.

(** * Further properties: upstream calls *)

Lemma callsOf_app (ev1 ev2 : list Event) :
  callsOf (ev1 ++ ev2)%list = (callsOf ev1 ++ callsOf ev2)%list.
Proof. apply omap_app. Qed.

Lemma issuedOnly_app (ev1 ev2 : list Event) :
  issuedOnly (ev1 ++ ev2)%list = (issuedOnly ev1 ++ issuedOnly ev2)%list.
Proof. apply List.filter_app. Qed.

Lemma getLadderData_events (sas : UpstreamClient) (profile : PlayerObject)
    (ladderId index t : Z) :
  eventsOf (run (getLadderData sas profile ladderId index) t)
  = (sleepEvents ((index + 1) * 1000) t ++ [Issued (GetLadder profile ladderId) t])%list.
Proof.
  unfold eventsOf, getLadderData.
  rewrite run_bind, await_sleep_resumes_at_once, run_bind, run_request.
  destruct (getLadder sas profile ladderId) as [ladderApiData|]; [|done].
  cbn [run sync]. by destruct (getPlayerLadderInfo _ _).
Qed.

(** Merging by time keeps every event, and leaves alone a trace whose
    events all happen at one time. *)
Lemma insertByTime_Permutation (e : Event) (l : list Event) :
  insertByTime e l ≡ₚ e :: l.
Proof.
  induction l as [|x l IH]; cbn [insertByTime]; [done|].
  destruct (eventTime e <=? eventTime x); [done|].
  rewrite IH. apply Permutation_swap.
Qed.

Lemma byTime_Permutation (l : list Event) : byTime l ≡ₚ l.
Proof.
  induction l as [|e l IH]; [done|].
  cbn [byTime foldr]. fold (byTime l).
  by rewrite insertByTime_Permutation, IH.
Qed.

Lemma byTime_same_time (t : Z) (l : list Event) :
  Forall (fun e => eventTime e = t) l → byTime l = l.
Proof.
  induction 1 as [|e l He Hl IH]; [done|].
  cbn [byTime foldr]. fold (byTime l). rewrite IH.
  destruct Hl as [|x l Hx Hl]; [done|].
  cbn [insertByTime]. rewrite He, Hx, Z.leb_refl. done.
Qed.

Lemma Promise_all_events {A} (tasks : list (M A)) (t : Z) :
  eventsOf (run (Promise_all tasks) t)
  = byTime (concat (List.map (fun task => eventsOf (run task t)) tasks)).
Proof.
  unfold eventsOf, Promise_all. cbn [run].
  rewrite List.map_map.
  by destruct (earliestRejection _) as [[e t']|].
Qed.

(** The ladder tasks of [getSnapshot] all act at the time it is started,
    so their events stay task by task. *)
Lemma getSnapshot_events (sas : UpstreamClient) (apiData : SummaryApi.t)
    (profile : PlayerObject) (t : Z) :
  eventsOf (run (getSnapshot sas apiData profile) t)
  = concat (List.map (fun task => eventsOf (run task t))
      (imap (fun index ladderId => getLadderData sas profile ladderId (Z.of_nat index))
            (ladderIdsOf apiData))).
Proof.
  unfold getSnapshot. rewrite Promise_all_events. fold (ladderIdsOf apiData).
  apply (byTime_same_time t).
  generalize (ladderIdsOf apiData). intros ids.
  assert (∀ (g : nat → Z) (ids : list Z),
    Forall (fun e => eventTime e = t)
      (concat (List.map (fun task => eventsOf (run task t))
        (imap (fun index ladderId => getLadderData sas profile ladderId (g index)) ids))))
    as H.
  { clear ids. intros g ids. revert g.
    induction ids as [|ladderId ids IH]; intros g; [constructor|].
    rewrite imap_cons. cbn [List.map concat].
    apply Forall_app. split; [|apply (IH (g ∘ S))].
    rewrite getLadderData_events. unfold sleepEvents. by repeat constructor. }
  apply (H Z.of_nat).
Qed.

(** [getSnapshot] issues one call per ladder membership, in the order of
    the memberships and all at the time it is started, whatever the
    answers are. *)
Theorem getSnapshot_issues_all_at_once (sas : UpstreamClient) (apiData : SummaryApi.t)
    (profile : PlayerObject) (t : Z) :
  issuedOnly (eventsOf (run (getSnapshot sas apiData profile) t))
  = List.map (fun ladderId => Issued (GetLadder profile ladderId) t) (ladderIdsOf apiData).
Proof.
  rewrite getSnapshot_events.
  generalize (ladderIdsOf apiData). intros ids.
  assert (∀ (g : nat → Z) (ids : list Z),
    issuedOnly (concat (List.map (fun task => eventsOf (run task t))
      (imap (fun index ladderId => getLadderData sas profile ladderId (g index)) ids)))
    = List.map (fun ladderId => Issued (GetLadder profile ladderId) t) ids) as H.
  { clear ids. intros g ids. revert g. induction ids as [|ladderId ids IH]; intros g; [done|].
    rewrite imap_cons. cbn [List.map concat].
    rewrite issuedOnly_app, getLadderData_events. f_equal.
    apply (IH (g ∘ S)). }
  apply (H Z.of_nat).
Qed.

Lemma getSnapshot_calls (sas : UpstreamClient) (apiData : SummaryApi.t)
    (profile : PlayerObject) (t : Z) :
  callsOf (eventsOf (run (getSnapshot sas apiData profile) t))
  = List.map (GetLadder profile) (ladderIdsOf apiData).
Proof.
  rewrite getSnapshot_events.
  generalize (ladderIdsOf apiData). intros ids.
  assert (∀ (g : nat → Z) (ids : list Z),
    callsOf (concat (List.map (fun task => eventsOf (run task t))
      (imap (fun index ladderId => getLadderData sas profile ladderId (g index)) ids)))
    = List.map (GetLadder profile) ids) as H.
  { clear ids. intros g ids. revert g. induction ids as [|ladderId ids IH]; intros g; [done|].
    rewrite imap_cons. cbn [List.map concat].
    rewrite callsOf_app, getLadderData_events. f_equal.
    apply (IH (g ∘ S)). }
  apply (H Z.of_nat).
Qed.

Lemma events_after_sync {A B} (c : Completion A) (f : A → M B) (t : Z) :
  eventsOf (run (sync c ≫= f) t)
  = match c with
    | Normal a => eventsOf (run (f a) t)
    | Throw _ => []
    end.
Proof.
  unfold eventsOf. rewrite run_bind. cbn [run sync].
  destruct c as [a|e]; [|done]. by destruct (run (f a) t) as [[c t'] ev].
Qed.

Lemma events_after_sleep {A} (ms : Z) (rest : M A) (t : Z) :
  callsOf (eventsOf (run (await (sleep ms) ≫= fun _ => rest) t))
  = callsOf (eventsOf (run rest t)).
Proof.
  unfold eventsOf. rewrite run_bind, await_sleep_resumes_at_once.
  by destruct (run rest t) as [[c t'] ev].
Qed.

Lemma events_after_request {A B} (sas : UpstreamClient) (c : Call) (answer : option A)
    (f : A → M B) (t : Z) :
  callsOf (eventsOf (run (request sas c answer ≫= f) t))
  = c :: match answer with
         | Some a => callsOf (eventsOf (run (f a) (t + latency sas c)))
         | None => []
         end.
Proof.
  unfold eventsOf. rewrite run_bind, run_request.
  destruct answer as [a|]; [|done]. by destruct (run (f a) _) as [[c' t'] ev].
Qed.

Lemma events_of_try_catch {A} (body : M A) (fallback : A) (t : Z) :
  eventsOf (run (try_catch body (mret fallback)) t) = eventsOf (run body t).
Proof.
  unfold eventsOf. rewrite run_try_catch.
  destruct (run body t) as [[[a|e] t'] ev]; [done|]. cbn. apply app_nil_r.
Qed.

Lemma getProfileData_calls_eq (sas : UpstreamClient)
    (getRegionNameById : Z -> Completion (list string))
    (profile : PlayerObject) (index t : Z) :
  callsOf (eventsOf (run (getProfileData sas getRegionNameById profile index) t))
  = upstreamCalls sas getRegionNameById profile.
Proof.
  unfold getProfileData, upstreamCalls. rewrite events_of_try_catch.
  rewrite events_after_request. f_equal.
  destruct (getProfile sas profile) as [profileData|]; [|done].
  rewrite events_after_sleep, events_after_request. f_equal.
  destruct (getLegacyMatchHistory sas profile) as [matchHistoryData|]; [|done].
  rewrite events_after_sleep, events_after_request. f_equal.
  destruct (getLadderSummary sas profile) as [ladderSummaryData|]; [|done].
  rewrite events_after_sync.
  destruct (getRegionNameById (regionId profile)) as [names|];
    cbn [mbind completion_bind mret completion_ret]; [|done].
  rewrite events_after_sync.
  destruct (getHeading profileData (names !! 0%nat)) as [heading|]; [|done].
  rewrite events_after_sleep.
  unfold eventsOf at 1. rewrite run_bind.
  pose proof (getSnapshot_calls sas ladderSummaryData profile
                (t + latency sas (GetProfile profile)
                 + latency sas (GetLegacyMatchHistory profile)
                 + latency sas (GetLadderSummary profile))) as Hsnap.
  unfold eventsOf in Hsnap.
  destruct (run (getSnapshot sas ladderSummaryData profile) _) as [[[snapshot|e] t'] ev];
    cbn [snd] in Hsnap; [|done].
  rewrite run_bind. cbn [run sync].
  destruct (getStats profileData) as [stats|]; cbn; by rewrite ?app_nil_r.
Qed.

(** The upstream calls of one profile's pipeline, in order: it stops at
    the first rejected call -- a rejected [getProfile] is the only call
    made -- and it issues the ladder calls, one per membership, only
    when the region name and the heading could be computed. *)
Theorem getProfileData_calls (sas : UpstreamClient)
    (getRegionNameById : Z -> Completion (list string))
    (profile : PlayerObject) (index t : Z) :
  callsOf (eventsOf (run (getProfileData sas getRegionNameById profile index) t))
  = upstreamCalls sas getRegionNameById profile
  ∧ (getProfile sas profile = None →
     callsOf (eventsOf (run (getProfileData sas getRegionNameById profile index) t))
     = [GetProfile profile])
  ∧ (∀ ladderSummaryData,
       getLadderSummary sas profile = Some ladderSummaryData →
       (List.length
          (callsOf (eventsOf (run (getProfileData sas getRegionNameById profile index) t)))
        <= 3 + List.length (SummaryApi.allLadderMemberships ladderSummaryData))%nat).
Proof.
  pose proof (getProfileData_calls_eq sas getRegionNameById profile index t) as Hcalls.
  split; [done|]. rewrite Hcalls. split.
  - intros Hnone. unfold upstreamCalls. by rewrite Hnone.
  - intros ladderSummaryData Hsummary. unfold upstreamCalls. rewrite Hsummary.
    destruct (getProfile sas profile); cbn [List.length]; [|lia].
    destruct (getLegacyMatchHistory sas profile); cbn [List.length]; [|lia].
    destruct (_ ≫= _); cbn [List.length]; [|lia].
    unfold ladderIdsOf. rewrite !length_map. lia.
Qed.

(** The second sample player has no profile upstream: one call, no more. *)
Lemma getProfileData_calls_witness :
  getProfile Sample.sas Sample.bob = None
  ∧ callsOf (eventsOf (run (Sample.getProfileData Sample.bob 1) 0))
    = [GetProfile Sample.bob]
  ∧ List.length (callsOf (eventsOf (run (Sample.getProfileData Sample.alice 0) 0))) = 5%nat.
Proof.
  split; [reflexivity|].
  destruct (getProfileData_calls Sample.sas Sample.getRegionNameById Sample.bob 1 0)
    as (_ & Hfail & _).
  split; [exact (Hfail eq_refl)|].
  destruct (getProfileData_calls Sample.sas Sample.getRegionNameById Sample.alice 0 0)
    as (Hcalls & _).
  unfold Sample.getProfileData. rewrite Hcalls. reflexivity.
Defined.

(** A profile the upstream service answers for, but incompletely, ends
    as the failure marker although no call was rejected: when the
    profile has no career, no snapshot or an empty season snapshot, and
    when one of its ladders lists no team with the profile. *)
Theorem getProfileData_incomplete_answers (sas : UpstreamClient)
    (getRegionNameById : Z -> Completion (list string))
    (profile : PlayerObject) (index t : Z) (profileData : ProfileApi.t) :
  getProfile sas profile = Some profileData →
  ProfileApi.career profileData = None
  ∨ ProfileApi.snapshot profileData = None
  ∨ (∃ s, ProfileApi.snapshot profileData = Some s ∧ ProfileApi.seasonSnapshot s = [])
  ∨ (∃ ladderSummaryData membership ladderApiData,
       getLadderSummary sas profile = Some ladderSummaryData
       ∧ In membership (SummaryApi.allLadderMemberships ladderSummaryData)
       ∧ getLadder sas profile (SummaryApi.ladderId membership) = Some ladderApiData
       ∧ Forall (fun ladderTeam => inTeam (profileId profile) ladderTeam = false)
           (LadderApi.ladderTeams ladderApiData)) →
  completionOf (run (getProfileData sas getRegionNameById profile index) t)
  = Normal FailureMarker.
Proof.
  intros Hprofile Hbad. rewrite getProfileData_fulfils.
  destruct (slot_cases sas getRegionNameById profile)
    as [[_ ->]|(heading & details & _ & Hpop)]; [done|]. exfalso.
  destruct Hpop as (profileData' & matchHistoryData & ladderSummaryData & names
                    & Hprofile' & _ & Hsummary & _ & Hheading & Hstats & _ & Hsnap).
  assert (profileData' = profileData) as -> by congruence.
  destruct Hbad as [Hcareer|[Hsnapshot|[Hempty|Hladder]]].
  - unfold getHeading in Hheading. by rewrite Hcareer in Hheading.
  - destruct (getStats_spec profileData) as (_ & Hthrow & _).
    rewrite (proj2 Hthrow) in Hstats; [done|auto].
  - destruct (getStats_spec profileData) as (_ & Hthrow & _).
    rewrite (proj2 Hthrow) in Hstats; [done|auto].
  - destruct Hladder as (summary' & membership & ladderApiData & Hsummary' & Hin & Hget & Hout).
    assert (summary' = ladderSummaryData) as -> by congruence.
    assert (is_Some (mapM (ladderResult sas profile)
              (List.map SummaryApi.ladderId
                 (SummaryApi.allLadderMemberships ladderSummaryData)))) as Hall
      by (rewrite Hsnap; eauto).
    apply mapM_is_Some_1 in Hall. rewrite Forall_forall in Hall.
    destruct (Hall (SummaryApi.ladderId membership)) as [info Hinfo].
    { apply list_elem_of_In. by apply in_map. }
    unfold ladderResult in Hinfo. rewrite Hget in Hinfo. simpl in Hinfo.
    destruct (getPlayerLadderInfo_failure ladderApiData (profileId profile)) as (_ & Hthrow).
    rewrite (proj2 Hthrow) in Hinfo; [done|auto].
Qed.

(** The careerless sample profile: all three calls are answered, the
    slot is the failure marker. *)
Lemma getProfileData_incomplete_answers_witness :
  getProfile Sample.sasNoCareer Sample.alice = Some Sample.careerless
  ∧ ProfileApi.career Sample.careerless = None
  ∧ completionOf
      (run (getProfileData Sample.sasNoCareer Sample.getRegionNameById Sample.alice 0) 0)
    = Normal FailureMarker.
Proof.
  split; [reflexivity|]. split; [reflexivity|].
  apply (getProfileData_incomplete_answers Sample.sasNoCareer Sample.getRegionNameById
           Sample.alice 0 0 Sample.careerless eq_refl).
  left. reflexivity.
Defined.

(** * Further properties: the season win ratio *)

Lemma fold_left_add_sumZ (l : list Z) (a : Z) : fold_left Z.add l a = a + sumZ l.
Proof.
  revert a. induction l as [|x l IH]; intros a; simpl; [lia|]. rewrite IH. lia.
Qed.

Lemma sumZ_Permutation (l1 l2 : list Z) : Permutation l1 l2 → sumZ l1 = sumZ l2.
Proof. induction 1; simpl; lia. Qed.

Lemma calculateWins_integerSeason_sum (wins : list (string * Z)) (games : option JsNum) :
  calculateWins (ProfileApi.seasonSnapshot (integerSeason wins games))
  = match wins with
    | [] => Throw TypeError
    | _ :: _ => Normal (of_Z (sumZ (List.map snd wins)))
    end.
Proof.
  destruct wins as [|first others]; [done|].
  rewrite calculateWins_integerSeason. unfold totalOf.
  rewrite fold_left_add_sumZ. done.
Qed.

(** With win counts that are natural numbers, a positive number of
    games of at most 2^45 and no more wins than games, the season win
    ratio is an integer percentage between 0 and 100, within one half
    of the exact percentage.  The bounds keep every sum and the product
    by 100 below 2^52, where the arithmetic of doubles followed by
    [Math.round] is the exact one. *)
Theorem seasonWinRatio_is_percentage (first : string * Z) (others : list (string * Z))
    (games : Z) :
  Forall (fun mode => 0 <= mode.2) (first :: others) →
  0 < games <= 2 ^ 45 →
  totalOf first others <= games →
  ∃ ratio,
    calculateSeasonWinRatio (Some (integerSeason (first :: others) (Some (of_Z games))))
    = Normal (of_Z ratio)
    ∧ 0 <= ratio <= 100
    ∧ - games < 2 * (ratio * games - 100 * totalOf first others) <= games.
Proof.
  intros Hnatural [Hgames _] Hwins.
  assert (0 <= totalOf first others) as Hpos.
  { clear Hwins. unfold totalOf. apply Forall_cons in Hnatural as [Hfirst Hothers].
    revert Hfirst. generalize first.2.
    induction Hothers as [|mode l Hmode _ IH]; intros z Hz; [done|].
    cbn [List.map fold_left]. apply IH. cbn beta in Hmode. lia. }
  eexists. split; [by apply calculateSeasonWinRatio_rounds|].
  set (wins := totalOf first others) in *.
  pose proof (Z.div_mod (2 * (wins * 100) + games) (2 * games) ltac:(lia)) as Hdiv.
  pose proof (Z.mod_pos_bound (2 * (wins * 100) + games) (2 * games) ltac:(lia)) as Hmod.
  split; [split|]; nia.
Qed.

Lemma seasonWinRatio_is_percentage_witness :
  0 < 7
  ∧ ∃ ratio,
      calculateSeasonWinRatio
        (Some (integerSeason [("1v1", 3); ("2v2", 2)] (Some (of_Z 7))))
      = Normal (of_Z ratio)
      ∧ 0 <= ratio <= 100
      ∧ - 7 < 2 * (ratio * 7 - 100 * 5) <= 7.
Proof.
  split; [lia|].
  destruct (seasonWinRatio_is_percentage ("1v1", 3) [("2v2", 2)] 7)
    as (ratio & Hratio & Hbounds & Hclose).
  - repeat constructor; simpl; lia.
  - lia.
  - by vm_compute.
  - exists ratio. split; [exact Hratio|]. split; [exact Hbounds|]. exact Hclose.
Defined.

(** With win counts that are natural numbers and sum to at most 2^53,
    the season win ratio does not depend on the order in which the game
    modes appear in the season snapshot.  Within the bound every
    partial sum is an integer that a double holds exactly, so that the
    additions of the code are the exact ones whatever their order. *)
Theorem seasonWinRatio_order_independent (wins1 wins2 : list (string * Z))
    (games : option JsNum) :
  Forall (fun mode => 0 <= mode.2) wins1 →
  sumZ (List.map snd wins1) <= 2 ^ 53 →
  Permutation wins1 wins2 →
  calculateSeasonWinRatio (Some (integerSeason wins1 games))
  = calculateSeasonWinRatio (Some (integerSeason wins2 games)).
Proof.
  intros _ _ Hperm. unfold calculateSeasonWinRatio.
  cbn [defined mbind completion_bind]. rewrite !calculateWins_integerSeason_sum.
  destruct wins1 as [|m1 l1], wins2 as [|m2 l2].
  - done.
  - by apply Permutation_nil in Hperm.
  - symmetry in Hperm. by apply Permutation_nil in Hperm.
  - by rewrite (sumZ_Permutation _ _ (Permutation_map snd Hperm)).
Qed.

Lemma seasonWinRatio_order_independent_witness :
  calculateSeasonWinRatio
    (Some (integerSeason [("1v1", 3); ("2v2", 2); ("3v3", 4)] (Some (of_Z 10))))
  = calculateSeasonWinRatio
      (Some (integerSeason [("2v2", 2); ("1v1", 3); ("3v3", 4)] (Some (of_Z 10)))).
Proof.
  apply seasonWinRatio_order_independent.
  - repeat constructor; simpl; lia.
  - by vm_compute.
  - apply perm_swap.
Defined.

(** * Further properties: the batch and the cache *)

Lemma callsOf_concat (evs : list (list Event)) :
  callsOf (concat evs) = concat (List.map callsOf evs).
Proof.
  induction evs as [|ev evs IH]; [done|]. cbn [concat List.map].
  by rewrite callsOf_app, IH.
Qed.

Lemma callsOf_Permutation (ev1 ev2 : list Event) :
  ev1 ≡ₚ ev2 → callsOf ev1 ≡ₚ callsOf ev2.
Proof. intros H. unfold callsOf. by rewrite H. Qed.

Lemma pipelines_events (sas : UpstreamClient)
    (getRegionNameById : Z -> Completion (list string))
    (profiles : list PlayerObject) (t : Z) (g : nat → Z) :
  List.map (fun task => callsOf (eventsOf (run task t)))
    (imap (fun index profile =>
             getProfileData sas getRegionNameById profile (g index)) profiles)
  = List.map (upstreamCalls sas getRegionNameById) profiles.
Proof.
  revert g. induction profiles as [|profile l IH]; intros g; [done|].
  rewrite imap_cons. cbn [List.map]. rewrite getProfileData_calls_eq. f_equal.
  apply (IH (g ∘ S)).
Qed.

(** The pipelines of a batch run together and their calls interleave:
    taken together they are the calls of the single pipelines. *)
Lemma pipelines_calls (sas : UpstreamClient)
    (getRegionNameById : Z -> Completion (list string))
    (profiles : list PlayerObject) (t : Z) :
  callsOf (eventsOf (run (Promise_all (pipelines sas getRegionNameById profiles)) t))
  ≡ₚ concat (List.map (upstreamCalls sas getRegionNameById) profiles).
Proof.
  rewrite Promise_all_events.
  rewrite (callsOf_Permutation _ _ (byTime_Permutation _)).
  rewrite callsOf_concat, List.map_map. unfold pipelines.
  by rewrite (pipelines_events sas getRegionNameById profiles t Z.of_nat).
Qed.

(** A pipeline whose [getProfile] is rejected leaves that call alone in
    the trace. *)
Lemma getProfileData_rejected_events (sas : UpstreamClient)
    (getRegionNameById : Z -> Completion (list string))
    (profile : PlayerObject) (index t : Z) :
  getProfile sas profile = None →
  eventsOf (run (getProfileData sas getRegionNameById profile index) t)
  = [Issued (GetProfile profile) t].
Proof.
  intros Hnone. unfold getProfileData. rewrite events_of_try_catch.
  unfold eventsOf. rewrite run_bind, run_request, Hnone. reflexivity.
Qed.

(** When every [getProfile] is rejected the calls are all issued at the
    start, in the order of the profiles. *)
Lemma pipelines_calls_rejected (sas : UpstreamClient)
    (getRegionNameById : Z -> Completion (list string))
    (profiles : list PlayerObject) (t : Z) :
  Forall (fun profile => getProfile sas profile = None) profiles →
  callsOf (eventsOf (run (Promise_all (pipelines sas getRegionNameById profiles)) t))
  = List.map GetProfile profiles.
Proof.
  intros Hrejected. rewrite Promise_all_events. unfold pipelines.
  assert (∀ (g : nat → Z),
    concat (List.map (fun task => eventsOf (run task t))
      (imap (fun index profile =>
               getProfileData sas getRegionNameById profile (g index)) profiles))
    = List.map (fun profile => Issued (GetProfile profile) t) profiles) as H.
  { induction Hrejected as [|profile l Hnone _ IH]; intros g; [done|].
    rewrite imap_cons. cbn [List.map concat].
    rewrite (getProfileData_rejected_events _ _ _ _ _ Hnone). cbn [app]. f_equal.
    apply (IH (g ∘ S)). }
  rewrite (H Z.of_nat). rewrite (byTime_same_time t).
  - clear. induction profiles as [|profile l IH]; [done|]. cbn. by rewrite <- IH.
  - clear. induction profiles as [|profile l IH]; by constructor.
Qed.

(** The cache write of [getFreshData] adds no upstream call to those of
    the pipelines. *)
Lemma getFreshData_calls_eq (sas : UpstreamClient)
    (getRegionNameById : Z -> Completion (list string)) (cacheActive : bool)
    (ttl : Z) (JSON_stringify : FreshData -> string)
    (profiles : list PlayerObject) (cacheSegment : string) (s : Server) :
  callsOf (getFreshData sas getRegionNameById cacheActive ttl JSON_stringify
             profiles cacheSegment s).2
  = callsOf (eventsOf (run (Promise_all (pipelines sas getRegionNameById profiles))
                           (now s))).
Proof.
  unfold getFreshData. fold (pipelines sas getRegionNameById profiles).
  pose proof (pipelines_fulfil sas getRegionNameById profiles (now s)) as Hfulfil.
  unfold eventsOf. unfold completionOf in Hfulfil.
  destruct (run (Promise_all (pipelines sas getRegionNameById profiles)) (now s))
    as [[c t1] ev1].
  cbn [fst snd] in Hfulfil |- *. subst c.
  unfold cacheObject. destruct cacheActive; cbn [snd negb fst spawn issue].
  - by rewrite callsOf_app, app_nil_r.
  - by rewrite callsOf_app, app_nil_r.
Qed.

Lemma getFreshData_calls_perm (sas : UpstreamClient)
    (getRegionNameById : Z -> Completion (list string)) (cacheActive : bool)
    (ttl : Z) (JSON_stringify : FreshData -> string)
    (profiles : list PlayerObject) (cacheSegment : string) (s : Server) :
  callsOf (getFreshData sas getRegionNameById cacheActive ttl JSON_stringify
             profiles cacheSegment s).2
  ≡ₚ concat (List.map (upstreamCalls sas getRegionNameById) profiles).
Proof. rewrite getFreshData_calls_eq. apply pipelines_calls. Qed.

(** The upstream calls of a batch are, taken together, those of its
    profiles' pipelines: the pipelines run side by side, so the calls of
    different profiles interleave, but none is added -- writing to the
    cache makes no upstream call --, none is left out, and no profile's
    calls depend on another profile. *)
Theorem getFreshData_calls (sas : UpstreamClient)
    (getRegionNameById : Z -> Completion (list string)) (cacheActive : bool)
    (ttl : Z) (JSON_stringify : FreshData -> string)
    (profiles : list PlayerObject) (cacheSegment : string) (s : Server) :
  callsOf (getFreshData sas getRegionNameById cacheActive ttl JSON_stringify
             profiles cacheSegment s).2
  ≡ₚ concat (List.map (upstreamCalls sas getRegionNameById) profiles)
  ∧ List.length (callsOf (getFreshData sas getRegionNameById cacheActive ttl
                            JSON_stringify profiles cacheSegment s).2)
    = sum_list (List.map (fun profile =>
                  List.length (upstreamCalls sas getRegionNameById profile)) profiles).
Proof.
  pose proof (getFreshData_calls_perm sas getRegionNameById cacheActive ttl
                JSON_stringify profiles cacheSegment s) as Hperm.
  split; [done|]. rewrite Hperm. clear.
  induction profiles as [|profile l IH]; [done|].
  cbn [List.map concat sum_list sum_list_with]. by rewrite length_app, IH.
Qed.

Lemma getData_miss_run (sas : UpstreamClient)
    (getRegionNameById : Z -> Completion (list string)) (ttl redisLatency : Z) (Json : Type)
    (JSON_stringify : FreshData -> string)
    (JSON_parse : option string -> Completion Json)
    (params : GetDataParams) (s : Server) :
  truthy_str (redisGet (redis s) (now s) (cacheKey params)) = false →
  ∃ t1 ev,
    getData sas getRegionNameById true ttl redisLatency Json JSON_stringify JSON_parse params s
    = (Normal (Fresh Json (ProfilesObject (slots sas getRegionNameById (profiles params)))),
       {| now := t1;
          redis := <[cacheKey params :=
                       written sas getRegionNameById JSON_stringify (profiles params)]>
                     (redis s);
          detached := (detached s ++ [[EXPIRE (cacheKey params) ttl]])%list |},
       ev).
Proof.
  intros Hmiss. unfold getData, isDataCached, cacheGet. fold (cacheKey params).
  rewrite Hmiss. cbn [andb].
  destruct (getFreshData_run sas getRegionNameById true ttl JSON_stringify
              (profiles params) (cacheKey params) (atTime (now s + redisLatency) s))
    as (t1 & ev1 & ->).
  cbn zeta. eauto.
Qed.

(** Once the first read has found a non-empty text, [getData] answers
    with what the second read finds, one cache round trip later. *)
Lemma getData_hit_run (sas : UpstreamClient)
    (getRegionNameById : Z -> Completion (list string)) (ttl redisLatency : Z)
    (Json : Type) (JSON_stringify : FreshData -> string)
    (JSON_parse : option string -> Completion Json)
    (params : GetDataParams) (s : Server) (text : string) :
  redisGet (redis s) (now s) (cacheKey params) = Some text →
  text ≠ "" →
  getData sas getRegionNameById true ttl redisLatency Json JSON_stringify JSON_parse params s
  = (FromCache Json <$>
       JSON_parse (redisGet (redis s) (now s + redisLatency) (cacheKey params)),
     atTime (now s + redisLatency + redisLatency) s,
     [Cache (GET (cacheKey params)) (now s);
      Cache (GET (cacheKey params)) (now s + redisLatency)]).
Proof.
  intros Hget Htext.
  assert (truthy_str (Some text) = true) as Htruthy.
  { simpl. by destruct (String.eqb_spec text ""). }
  unfold getData, isDataCached, getCachedObject, cacheGet. fold (cacheKey params).
  rewrite Hget, Htruthy. done.
Qed.

(** Without a cache backend [getData] fetches the whole batch on every
    call, whatever the store holds, and touches neither the store nor
    the list of detached calls; its upstream calls are, taken together,
    those of the profiles' pipelines. *)
Theorem getData_cache_disabled (sas : UpstreamClient)
    (getRegionNameById : Z -> Completion (list string)) (ttl redisLatency : Z)
    (Json : Type) (JSON_stringify : FreshData -> string)
    (JSON_parse : option string -> Completion Json)
    (params : GetDataParams) (s : Server) :
  let result :=
    getData sas getRegionNameById false ttl redisLatency Json JSON_stringify JSON_parse
      params s in
  result.1.1
  = Normal (Fresh Json (ProfilesObject
      (List.map (slot sas getRegionNameById) (profiles params))))
  ∧ redis result.1.2 = redis s
  ∧ detached result.1.2 = detached s
  ∧ callsOf result.2
    ≡ₚ concat (List.map (upstreamCalls sas getRegionNameById) (profiles params)).
Proof.
  cbn zeta. unfold getData, isDataCached. cbn [andb].
  pose proof (getFreshData_calls_perm sas getRegionNameById false ttl JSON_stringify
                (profiles params) ("viewer-" +:+ channelId params) s) as Hcalls.
  destruct (getFreshData_run sas getRegionNameById false ttl JSON_stringify
              (profiles params) ("viewer-" +:+ channelId params) s) as (t1 & ev1 & Hrun).
  rewrite Hrun in Hcalls |- *. cbn zeta in Hcalls |- *. cbn [fst snd] in Hcalls |- *.
  by rewrite app_nil_r in Hcalls |- *.
Qed.

(** Read-through: after a miss was served and the detached [EXPIRE] has
    run, at a time [t], a request for the same channel -- with whatever
    profiles -- that starts at a time [t'] before [t + ttl * 1000] is
    answered from the cache: it makes no upstream call, only its two
    reads of the cache, and leaves the store as it is.  The text it
    decodes is what its second read finds, one cache round trip after
    the first: the encoding that was written if that read too is before
    [t + ttl * 1000], and nothing, so that it returns
    [JSON.parse(null)], if the entry has expired in between. *)
Theorem getData_read_through (sas : UpstreamClient)
    (getRegionNameById : Z -> Completion (list string)) (ttl redisLatency : Z)
    (Json : Type) (JSON_stringify : FreshData -> string)
    (JSON_parse : option string -> Completion Json)
    (params params' : GetDataParams) (s : Server) (t t' : Z) :
  truthy_str (redisGet (redis s) (now s) (cacheKey params)) = false →
  channelId params' = channelId params →
  JSON_stringify (ProfilesObject (List.map (slot sas getRegionNameById) (profiles params)))
  ≠ "" →
  t' < t + ttl * 1000 →
  let served :=
    (getData sas getRegionNameById true ttl redisLatency Json JSON_stringify JSON_parse
       params s).1.2 in
  let cached := atTime t' (resumeDetached (List.length (detached s)) (atTime t served)) in
  let encoded :=
    JSON_stringify (ProfilesObject (List.map (slot sas getRegionNameById) (profiles params))) in
  getData sas getRegionNameById true ttl redisLatency Json JSON_stringify JSON_parse
    params' cached
  = (FromCache Json <$>
       JSON_parse (if t' + redisLatency <? t + ttl * 1000 then Some encoded else None),
     atTime (t' + redisLatency + redisLatency) cached,
     [Cache (GET (cacheKey params)) t';
      Cache (GET (cacheKey params)) (t' + redisLatency)]).
Proof.
  intros Hmiss Hchannel Htext Hlive.
  destruct (getData_miss_run sas getRegionNameById ttl redisLatency Json JSON_stringify
              JSON_parse params s Hmiss) as (t1 & ev & ->).
  cbn zeta. cbn [fst snd]. unfold resumeDetached, atTime. cbn [redis detached now].
  rewrite list_lookup_middle by done. cbn [redis detached now].
  unfold written. rewrite expire_after_set.
  assert (cacheKey params' = cacheKey params) as Hkey
    by (unfold cacheKey; by rewrite Hchannel).
  rewrite <- Hkey.
  rewrite (getData_hit_run sas getRegionNameById ttl redisLatency Json JSON_stringify
             JSON_parse params' _
             (JSON_stringify (ProfilesObject (slots sas getRegionNameById (profiles params))))).
  - cbn [redis now atTime detached]. unfold redisGet.
    rewrite Hkey, lookup_insert_eq. cbn. unfold slots.
    by destruct (t' + redisLatency <? t + ttl * 1000).
  - cbn [redis now]. unfold redisGet. rewrite Hkey, lookup_insert_eq. cbn.
    destruct (Z.ltb_spec t' (t + ttl * 1000)); [done|lia].
  - done.
Qed.

(** On the sample server a cache round trip takes 2 ms and the entry
    expires at 60000 ms: a request at 59997 ms is served the decoded
    text; one at 59999 ms passes the first read and gets
    [JSON.parse(null)]. *)
Lemma getData_read_through_witness :
  (Sample.getData (Sample.batchRequest "c1" (Some true))
     (atTime 59997 (resumeDetached 0 (atTime 0 Sample.afterMiss)))).1.1
  = Normal (FromCache string "{profiles:3}")
  ∧ (Sample.getData (Sample.batchRequest "c1" (Some true))
       (atTime 59999 (resumeDetached 0 (atTime 0 Sample.afterMiss)))).1.1
    = Normal (FromCache string "null").
Proof.
  assert (Sample.JSON_stringify
            (ProfilesObject
               (List.map (slot Sample.sas Sample.getRegionNameById)
                  (profiles (Sample.batchRequest "c1" None)))) ≠ "") as Htext
    by (by vm_compute).
  split.
  - exact (f_equal (fun r => r.1.1)
             (getData_read_through Sample.sas Sample.getRegionNameById 60 2 string
                Sample.JSON_stringify Sample.JSON_parse
                (Sample.batchRequest "c1" None) (Sample.batchRequest "c1" (Some true))
                Sample.emptyServer 0 59997 eq_refl eq_refl Htext ltac:(lia))).
  - exact (f_equal (fun r => r.1.1)
             (getData_read_through Sample.sas Sample.getRegionNameById 60 2 string
                Sample.JSON_stringify Sample.JSON_parse
                (Sample.batchRequest "c1" None) (Sample.batchRequest "c1" (Some true))
                Sample.emptyServer 0 59999 eq_refl eq_refl Htext ltac:(lia))).
Defined.

(** Once the time to live has run out the entry counts as absent: the
    next request fetches the batch afresh, for its own profiles, and
    writes it over the old entry, again without an expiry. *)
Theorem getData_refetches_after_expiry (sas : UpstreamClient)
    (getRegionNameById : Z -> Completion (list string)) (ttl redisLatency : Z) (Json : Type)
    (JSON_stringify : FreshData -> string)
    (JSON_parse : option string -> Completion Json)
    (params : GetDataParams) (s : Server) (entry : CacheEntry) (due : Z) :
  redis s !! cacheKey params = Some entry →
  expiresAt entry = Some due →
  due <= now s →
  let result :=
    getData sas getRegionNameById true ttl redisLatency Json JSON_stringify JSON_parse params s in
  result.1.1
  = Normal (Fresh Json (ProfilesObject
      (List.map (slot sas getRegionNameById) (profiles params))))
  ∧ redis result.1.2 !! cacheKey params
    = Some {| value := JSON_stringify (ProfilesObject
                (List.map (slot sas getRegionNameById) (profiles params)));
              expiresAt := None |}.
Proof.
  intros Hentry Hdue Hexpired.
  assert (truthy_str (redisGet (redis s) (now s) (cacheKey params)) = false) as Hmiss.
  { unfold redisGet, live. rewrite Hentry. cbn. rewrite Hdue.
    by destruct (Z.ltb_spec (now s) due); [lia|]. }
  destruct (getData_miss_run sas getRegionNameById ttl redisLatency Json JSON_stringify JSON_parse
              params s Hmiss) as (t1 & ev & ->).
  cbn zeta. cbn [fst snd redis]. split; [done|]. by rewrite lookup_insert_eq.
Qed.

Lemma getData_refetches_after_expiry_witness :
  (Sample.getData (Sample.batchRequest "c1" None) (atTime 60000 Sample.cachedServer)).1.1
  = Normal (Fresh string (ProfilesObject
      (List.map (slot Sample.sas Sample.getRegionNameById)
         [Sample.alice; Sample.bob; Sample.carol]))).
Proof.
  destruct (getData_refetches_after_expiry Sample.sas Sample.getRegionNameById 60 2 string
              Sample.JSON_stringify Sample.JSON_parse (Sample.batchRequest "c1" None)
              (atTime 60000 Sample.cachedServer)
              {| value := "{profiles:3}"; expiresAt := Some 60000 |} 60000)
    as [Hresult _]; [by vm_compute|reflexivity|cbn; lia|].
  exact Hresult.
Defined.

Lemma slots_all_rejected (sas : UpstreamClient)
    (getRegionNameById : Z -> Completion (list string)) (profiles : list PlayerObject) :
  Forall (fun profile => getProfile sas profile = None) profiles →
  List.map (slot sas getRegionNameById) profiles
  = replicate (List.length profiles) FailureMarker
  ∧ concat (List.map (upstreamCalls sas getRegionNameById) profiles)
    = List.map GetProfile profiles.
Proof.
  induction 1 as [|profile profiles Hnone _ [IHslots IHcalls]]; [done|].
  cbn [List.map List.length replicate concat]. rewrite IHslots, IHcalls.
  unfold slot, assemble, upstreamCalls. by rewrite Hnone.
Qed.

(** Failures are cached like results.  When [getProfile] is rejected for
    every profile of a miss, one call per profile is made, the result is
    a failure marker per profile, and that is what is written to the
    cache, to be served until it expires. *)
Theorem getData_caches_failures (sas : UpstreamClient)
    (getRegionNameById : Z -> Completion (list string)) (ttl redisLatency : Z) (Json : Type)
    (JSON_stringify : FreshData -> string)
    (JSON_parse : option string -> Completion Json)
    (params : GetDataParams) (s : Server) :
  truthy_str (redisGet (redis s) (now s) (cacheKey params)) = false →
  Forall (fun profile => getProfile sas profile = None) (profiles params) →
  let result :=
    getData sas getRegionNameById true ttl redisLatency Json JSON_stringify JSON_parse params s in
  let failures :=
    ProfilesObject (replicate (List.length (profiles params)) FailureMarker) in
  result.1.1 = Normal (Fresh Json failures)
  ∧ redis result.1.2 !! cacheKey params
    = Some {| value := JSON_stringify failures; expiresAt := None |}
  ∧ callsOf result.2 = List.map GetProfile (profiles params).
Proof.
  intros Hmiss Hrejected.
  destruct (slots_all_rejected sas getRegionNameById _ Hrejected) as [Hslots Hcalls].
  pose proof (getFreshData_calls_eq sas getRegionNameById true ttl JSON_stringify
                (profiles params) (cacheKey params) (atTime (now s + redisLatency) s))
    as Hfresh.
  rewrite (pipelines_calls_rejected sas getRegionNameById _ _ Hrejected) in Hfresh.
  destruct (getData_miss_run sas getRegionNameById ttl redisLatency Json JSON_stringify
              JSON_parse params s Hmiss) as (t1 & ev & Hrun).
  cbn zeta. rewrite Hrun. cbn [fst snd redis]. unfold written, slots. rewrite Hslots.
  split; [done|]. split; [by rewrite lookup_insert_eq|].
  revert Hrun. unfold getData, isDataCached, cacheGet. fold (cacheKey params).
  rewrite Hmiss. cbn [andb].
  destruct (getFreshData _ _ _ _ _ _ _ _) as [[c s'] ev'].
  intros [= _ _ <-]. cbn [snd] in Hfresh.
  rewrite <- Hfresh. reflexivity.
Qed.

Lemma getData_caches_failures_witness :
  (getData Sample.sasDown Sample.getRegionNameById true 60 2 string
     Sample.JSON_stringify Sample.JSON_parse
     (Sample.batchRequest "c1" None) Sample.emptyServer).1.1
  = Normal (Fresh string (ProfilesObject [FailureMarker; FailureMarker; FailureMarker])).
Proof.
  destruct (getData_caches_failures Sample.sasDown Sample.getRegionNameById 60 2 string
              Sample.JSON_stringify Sample.JSON_parse
              (Sample.batchRequest "c1" None) Sample.emptyServer eq_refl)
    as (Hresult & _).
  - repeat constructor.
  - exact Hresult.
Defined.

(** The empty batch: on a miss with the cache active [getData] makes no
    upstream call and takes no time beyond the answer of the cache read
    it awaits; it returns [{profiles: []}] and writes it to the cache.
    Its only events are that read and the write. *)
Theorem getData_empty_batch (sas : UpstreamClient)
    (getRegionNameById : Z -> Completion (list string)) (ttl redisLatency : Z)
    (Json : Type) (JSON_stringify : FreshData -> string)
    (JSON_parse : option string -> Completion Json)
    (channelId : string) (refresh : option bool) (s : Server) :
  let params := {| channelId := channelId; profiles := []; refresh := refresh |} in
  truthy_str (redisGet (redis s) (now s) (cacheKey params)) = false →
  getData sas getRegionNameById true ttl redisLatency Json JSON_stringify JSON_parse params s
  = (Normal (Fresh Json (ProfilesObject [])),
     {| now := now s + redisLatency;
        redis := <[cacheKey params :=
                     {| value := JSON_stringify (ProfilesObject []); expiresAt := None |}]>
                   (redis s);
        detached := (detached s ++ [[EXPIRE (cacheKey params) ttl]])%list |},
     [Cache (GET (cacheKey params)) (now s);
      Cache (SET (cacheKey params) (JSON_stringify (ProfilesObject [])))
            (now s + redisLatency)]).
Proof.
  intros params Hmiss. unfold getData, isDataCached, cacheGet. fold (cacheKey params).
  rewrite Hmiss. reflexivity.
Qed.

Lemma getData_empty_batch_witness :
  (getData Sample.sas Sample.getRegionNameById true 60 2 string
     Sample.JSON_stringify Sample.JSON_parse
     {| channelId := "c2"; profiles := []; refresh := None |} Sample.cachedServer).1.1
  = Normal (Fresh string (ProfilesObject [])).
Proof.
  exact (f_equal (fun r => r.1.1)
           (getData_empty_batch Sample.sas Sample.getRegionNameById 60 2 string
              Sample.JSON_stringify Sample.JSON_parse "c2" None Sample.cachedServer
              ltac:(by vm_compute))).
Defined.

(** A live entry whose text is not empty and which [JSON.parse] rejects
    makes [getData] throw what [JSON.parse] throws, as long as the entry
    is unexpired at both reads of the cache: there is no fallback to a
    fresh fetch, no upstream call, and the entry stays.  The empty
    text, which [JSON.parse] rejects as well, never gets that far: it
    fails the truthiness test of [isDataCached], so the entry counts as
    missing, the batch is fetched and its encoding is written over the
    entry. *)
Theorem getData_undecodable_entry (sas : UpstreamClient)
    (getRegionNameById : Z -> Completion (list string)) (ttl redisLatency : Z)
    (Json : Type) (JSON_stringify : FreshData -> string)
    (JSON_parse : option string -> Completion Json)
    (params : GetDataParams) (s : Server) (entry : CacheEntry) (e : JsError) (t : Z) :
  redis s !! cacheKey params = Some entry →
  JSON_parse (Some (value entry)) = Throw e →
  live t entry = true →
  (value entry ≠ "" →
   live (t + redisLatency) entry = true →
   getData sas getRegionNameById true ttl redisLatency Json JSON_stringify JSON_parse
     params (atTime t s)
   = (Throw e, atTime (t + redisLatency + redisLatency) s,
      [Cache (GET (cacheKey params)) t; Cache (GET (cacheKey params)) (t + redisLatency)]))
  ∧ (value entry = "" →
     let result :=
       getData sas getRegionNameById true ttl redisLatency Json JSON_stringify JSON_parse
         params (atTime t s) in
     result.1.1
     = Normal (Fresh Json (ProfilesObject
         (List.map (slot sas getRegionNameById) (profiles params))))
     ∧ redis result.1.2 !! cacheKey params
       = Some {| value := JSON_stringify (ProfilesObject
                   (List.map (slot sas getRegionNameById) (profiles params)));
                 expiresAt := None |}).
Proof.
  intros Hentry Hparse Hlive.
  assert (redisGet (redis (atTime t s)) (now (atTime t s)) (cacheKey params)
          = Some (value entry)) as Hget.
  { cbn [redis now atTime]. unfold redisGet. rewrite Hentry. cbn. by rewrite Hlive. }
  split.
  - intros Hvalue Hlive2.
    rewrite (getData_hit_run sas getRegionNameById ttl redisLatency Json JSON_stringify
               JSON_parse params (atTime t s) (value entry) Hget Hvalue).
    cbn [redis now atTime]. unfold redisGet at 1. rewrite Hentry. cbn.
    by rewrite Hlive2, Hparse.
  - intros Hvalue.
    destruct (getData_miss_run sas getRegionNameById ttl redisLatency Json JSON_stringify
                JSON_parse params (atTime t s)) as (t1 & ev & ->).
    { by rewrite Hget, Hvalue. }
    cbn zeta. cbn [fst snd redis]. split; [done|]. by rewrite lookup_insert_eq.
Qed.

(** On the sample server with a decoder that rejects everything, a
    request at 5 ms for the entry due at 60000 ms throws; with the
    sample decoder, which rejects the empty text, a request that finds
    the empty text under its key is served a fresh batch. *)
Lemma getData_undecodable_entry_witness :
  (getData Sample.sas Sample.getRegionNameById true 60 2 string Sample.JSON_stringify
     (fun _ => Throw SyntaxError) (Sample.batchRequest "c1" None)
     (atTime 5 Sample.cachedServer)).1.1
  = Throw SyntaxError
  ∧ (Sample.getData (Sample.batchRequest "c1" None) (atTime 5 Sample.emptyTextServer)).1.1
    = Normal (Fresh string (ProfilesObject
        (List.map (slot Sample.sas Sample.getRegionNameById)
           [Sample.alice; Sample.bob; Sample.carol]))).
Proof.
  split.
  - destruct (getData_undecodable_entry Sample.sas Sample.getRegionNameById 60 2 string
                Sample.JSON_stringify (fun _ => Throw SyntaxError)
                (Sample.batchRequest "c1" None) Sample.cachedServer
                {| value := "{profiles:3}"; expiresAt := Some 60000 |} SyntaxError 5
                ltac:(by vm_compute) eq_refl eq_refl) as [Hthrows _].
    exact (f_equal (fun r => r.1.1) (Hthrows ltac:(discriminate) eq_refl)).
  - destruct (getData_undecodable_entry Sample.sas Sample.getRegionNameById 60 2 string
                Sample.JSON_stringify Sample.JSON_parse
                (Sample.batchRequest "c1" None) Sample.emptyTextServer
                {| value := ""; expiresAt := Some 60000 |} SyntaxError 5
                ltac:(by vm_compute) eq_refl eq_refl) as [_ Hfresh].
    exact (proj1 (Hfresh eq_refl)).
Defined.

(** * Further properties: the persistent store *)

Lemma find_updateFirst_other (id id' : Z) (newProfiles : list PlayerObject)
    (docs : list Db.ChannelConfig) :
  id' ≠ id →
  List.find (Db.hasChannel id') (Db.updateFirst id newProfiles docs)
  = List.find (Db.hasChannel id') docs.
Proof.
  intros Hne. induction docs as [|doc docs IH]; [done|]. cbn [Db.updateFirst].
  destruct (Db.hasChannel id doc) eqn:Hdoc; cbn [List.find].
  - unfold Db.hasChannel in *. cbn [Db.channelId].
    apply Z.eqb_eq in Hdoc. rewrite Hdoc.
    by destruct (Z.eqb_spec id id'); [congruence|].
  - by rewrite IH.
Qed.

Lemma find_app_other (id' : Z) (docs : list Db.ChannelConfig) (doc : Db.ChannelConfig) :
  Db.hasChannel id' doc = false →
  List.find (Db.hasChannel id') (docs ++ [doc])%list = List.find (Db.hasChannel id') docs.
Proof.
  intros Hdoc. induction docs as [|d docs IH]; cbn [app List.find].
  - by rewrite Hdoc.
  - by rewrite IH.
Qed.

Lemma channelIds_updateFirst (id : Z) (newProfiles : list PlayerObject)
    (docs : list Db.ChannelConfig) :
  List.map Db.channelId (Db.updateFirst id newProfiles docs) = List.map Db.channelId docs.
Proof.
  induction docs as [|doc docs IH]; [done|]. cbn [Db.updateFirst].
  destruct (Db.hasChannel id doc); cbn [List.map Db.channelId]; [done|]. by rewrite IH.
Qed.

Lemma find_None_not_in (id : Z) (docs : list Db.ChannelConfig) :
  List.find (Db.hasChannel id) docs = None → ¬ In id (List.map Db.channelId docs).
Proof.
  induction docs as [|doc docs IH]; cbn [List.find List.map]; [by intros _ []|].
  destruct (Db.hasChannel id doc) eqn:Hdoc; [done|].
  intros Hfind [Heq|Hin]; [|by apply IH].
  unfold Db.hasChannel in Hdoc. apply Z.eqb_neq in Hdoc. congruence.
Qed.

(** [save] leaves every other channel alone: whatever it does to the
    channel it saves, [get] of a different channel answers as before. *)
Theorem save_other_channels_untouched (maxPlayerProfileCount : Z)
    (validators : list PlayerObject -> bool) (config : Db.ConfigObject.t)
    (db : Db.Mongo) (channelId : Z) :
  channelId ≠ Db.ConfigObject.channelId config →
  Db.get channelId (Db.save maxPlayerProfileCount validators config db).2
  = Db.get channelId db.
Proof.
  intros Hne. unfold Db.save, Db.findOneAndUpdate.
  destruct (Db.connected db) eqn:Hconn; cbn [negb]; [|done].
  destruct (validators _); cbn [negb]; [|done].
  unfold Db.get, Db.findOne.
  destruct (List.find _ (Db.documents db)) as [old|]; cbn [snd Db.connected Db.documents];
    rewrite Hconn.
  - by rewrite find_updateFirst_other.
  - rewrite find_app_other; [done|].
    unfold Db.hasChannel. cbn [Db.channelId]. by apply Z.eqb_neq.
Qed.

Lemma save_other_channels_untouched_witness :
  Db.get 7 (Db.save 2 (fun _ => true) Sample.sampleConfig Sample.sampleMongo).2
  = Db.Found 200 7 [Sample.alice].
Proof.
  rewrite (save_other_channels_untouched 2 (fun _ => true) Sample.sampleConfig
             Sample.sampleMongo 7); [reflexivity|].
  cbn. lia.
Defined.

(** [save] keeps one document per channel: if no two documents share a
    channel before, none do after; it never removes a document and adds
    at most one, for a channel that had none. *)
Theorem save_keeps_channels_unique (maxPlayerProfileCount : Z)
    (validators : list PlayerObject -> bool) (config : Db.ConfigObject.t)
    (db : Db.Mongo) :
  let db' := (Db.save maxPlayerProfileCount validators config db).2 in
  (NoDup (channelIds db) → NoDup (channelIds db'))
  ∧ (channelIds db' = channelIds db
     ∨ (¬ In (Db.ConfigObject.channelId config) (channelIds db)
        ∧ channelIds db' = (channelIds db ++ [Db.ConfigObject.channelId config])%list))
  ∧ Db.connected db' = Db.connected db.
Proof.
  cbn zeta. unfold Db.save, Db.findOneAndUpdate, channelIds.
  destruct (Db.connected db) eqn:Hconn; cbn [negb snd]; [|by auto].
  destruct (validators _); cbn [negb snd]; [|by auto].
  destruct (List.find _ (Db.documents db)) as [old|] eqn:Hfind;
    cbn [snd Db.connected Db.documents].
  - rewrite channelIds_updateFirst. auto.
  - apply find_None_not_in in Hfind. rewrite map_app. cbn [List.map Db.channelId].
    split; [|by auto].
    intros Hnodup. apply NoDup_app. split; [done|]. split.
    + intros x Hx Hnew. apply list_elem_of_singleton in Hnew. subst x.
      by apply Hfind, list_elem_of_In.
    + apply NoDup_singleton.
Qed.

Lemma save_keeps_channels_unique_witness :
  NoDup (channelIds Sample.sampleMongo)
  ∧ NoDup (channelIds (Db.save 2 (fun _ => true) Sample.sampleConfig Sample.sampleMongo).2).
Proof.
  assert (NoDup (channelIds Sample.sampleMongo)) as Hbefore
    by (apply NoDup_singleton).
  split; [done|].
  destruct (save_keeps_channels_unique 2 (fun _ => true) Sample.sampleConfig
              Sample.sampleMongo) as (Hunique & _).
  exact (Hunique Hbefore).
Defined.

Lemma updateFirst_idempotent (id : Z) (newProfiles : list PlayerObject)
    (docs : list Db.ChannelConfig) :
  Db.updateFirst id newProfiles (Db.updateFirst id newProfiles docs)
  = Db.updateFirst id newProfiles docs.
Proof.
  induction docs as [|doc docs IH]; [done|]. cbn [Db.updateFirst].
  destruct (Db.hasChannel id doc) eqn:Hdoc; cbn [Db.updateFirst].
  - unfold Db.hasChannel in *. cbn [Db.channelId]. by rewrite Hdoc.
  - by rewrite Hdoc, IH.
Qed.

Lemma updateFirst_inserted (id : Z) (newProfiles : list PlayerObject)
    (docs : list Db.ChannelConfig) :
  List.find (Db.hasChannel id) docs = None →
  Db.updateFirst id newProfiles
    (docs ++ [{| Db.channelId := id; Db.profiles := newProfiles |}])%list
  = (docs ++ [{| Db.channelId := id; Db.profiles := newProfiles |}])%list.
Proof.
  induction docs as [|doc docs IH]; cbn [app List.find Db.updateFirst].
  - intros _. unfold Db.hasChannel. cbn [Db.channelId]. by rewrite Z.eqb_refl.
  - destruct (Db.hasChannel id doc); [done|]. intros H. by rewrite IH.
Qed.

(** Saving the same configuration twice is the same as saving it once:
    the same answer and the same store. *)
Theorem save_idempotent (maxPlayerProfileCount : Z)
    (validators : list PlayerObject -> bool) (config : Db.ConfigObject.t)
    (db : Db.Mongo) :
  Db.save maxPlayerProfileCount validators config
    (Db.save maxPlayerProfileCount validators config db).2
  = Db.save maxPlayerProfileCount validators config db.
Proof.
  unfold Db.save, Db.findOneAndUpdate.
  destruct (Db.connected db) eqn:Hconn; cbn [negb snd]; [|by rewrite Hconn].
  destruct (validators _) eqn:Hvalid; cbn [negb snd]; [|by rewrite Hconn].
  destruct (List.find _ (Db.documents db)) as [old|] eqn:Hfind;
    cbn [snd Db.connected Db.documents negb].
  - rewrite (find_updateFirst _ _ _ _ Hfind). by rewrite updateFirst_idempotent.
  - rewrite (find_inserted _ _ _ Hfind). by rewrite updateFirst_inserted.
Qed.
